(** * ProofGate SDK: a shallow embedding of the client and its contract

    The client ([src/index.ts] of the SDK) is one class, [ProofGate], whose
    public operations all funnel through a private [request] routine built
    on the global [fetch] and [setTimeout].  The embedding below follows the
    source line by line:

    - JavaScript values are an inductive type [value]; caller-owned objects
      (the configuration and the validation request) live in a store of
      objects, so that aliasing and (absence of) mutation can be stated;
    - asynchronous methods are computations in a state-and-exception monad
      [M] over a [world] made of the object store, the set of armed timers,
      the log of network calls and, for each call, the timer that guards
      it; [await] is sequencing;
    - the network is a parameter: a [transport] maps every call handed to
      [fetch] to what happens to it.

    Numbers are the integers that JavaScript holds and prints exactly (the
    safe integers, below 2^53 in absolute value); fractional and larger
    numbers, [NaN] and the infinities are outside the model, as are
    functions, getters and symbols.  Whether a conversion to a string
    throws is decided for every value; what text it gives is claimed only
    for the values that [exact] accepts. *)

From Stdlib Require Import ZArith Ascii String.
From stdpp Require Import gmap strings list fin_maps pretty.

#[local] Set Warnings "-register-all".

Open Scope Z_scope.
Open Scope string_scope.

(** ** JavaScript values *)

Module Js.

(** Parsed JSON and primitive values.  An object literal inside a value is
    an association list in source order; a later binding of a key shadows
    an earlier one, as [JSON.parse] does. *)
Inductive value : Type :=
| VUndefined
| VNull
| VBool (b : bool)
| VNum (n : Z)
| VStr (s : string)
| VArr (xs : list value)
| VObj (fields : list (string * value)).

(** [ToBoolean]: what [!v] and [v || w] look at. *)
Definition truthy (v : value) : bool :=
  match v with
  | VUndefined | VNull => false
  | VBool b => b
  | VNum n => negb (Z.eqb n 0)
  | VStr s => negb (String.eqb s EmptyString)
  | VArr _ | VObj _ => true
  end.

(** [a || b] *)
Definition or (a b : value) : value := if truthy a then a else b.

(** The text [ToString] gives, as applied by template literals and by
    the [Error] constructor, when it returns; whether it returns is
    [convertible] below.  A number prints as its decimal digits, which is
    what JavaScript prints for the safe integers; an object prints through
    the [toString] it inherits; array elements that are [null] or
    [undefined] print as the empty string. *)
Fixpoint to_string (v : value) : string :=
  match v with
  | VUndefined => "undefined"
  | VNull => "null"
  | VBool true => "true"
  | VBool false => "false"
  | VNum n => pretty n
  | VStr s => s
  | VArr xs =>
      let elem x :=
        match x with
        | VUndefined | VNull => EmptyString
        | _ => to_string x
        end in
      (fix join (l : list value) : string :=
         match l with
         | [] => EmptyString
         | [x] => elem x
         | x :: l' => elem x ++ "," ++ join l'
         end) xs
  | VObj _ => "[object Object]"
  end.

(** Last binding of [k] in an association list. *)
Fixpoint assoc_last (k : string) (fields : list (string * value)) : option value :=
  match fields with
  | [] => None
  | (k', v) :: rest =>
      match assoc_last k rest with
      | Some v' => Some v'
      | None => if String.eqb k k' then Some v else None
      end
  end.

(** [JSON.stringify] up to parsing: the JSON document a value serialises
    to.  [None] is the [undefined] result, under which an object member is
    left out; inside an array [undefined] becomes [null]. *)
Fixpoint to_json (v : value) : option value :=
  match v with
  | VUndefined => None
  | VArr xs =>
      Some (VArr (List.map (fun x => match to_json x with
                                     | Some j => j
                                     | None => VNull
                                     end) xs))
  | VObj fields =>
      Some (VObj ((fix members (l : list (string * value)) :=
                     match l with
                     | [] => []
                     | (k, x) :: l' =>
                         match to_json x with
                         | Some j => (k, j) :: members l'
                         | None => members l'
                         end
                     end) fields))
  | _ => Some v
  end.

(** Whether [fields] has a member called [k]. *)
Definition has_key (k : string) (fields : list (string * value)) : bool :=
  match assoc_last k fields with
  | Some _ => true
  | None => false
  end.

(** Whether [ToString] returns.  A parsed object inherits a [toString]
    that returns, unless a member of its own shadows it: no parsed value is
    callable, the inherited [valueOf] then returns the object itself, and
    the conversion throws a [TypeError].  An array converts its elements. *)
Fixpoint convertible (v : value) : bool :=
  match v with
  | VArr xs =>
      (fix all (l : list value) : bool :=
         match l with
         | [] => true
         | x :: l' => convertible x && all l'
         end) xs
  | VObj fields => negb (has_key "toString" fields)
  | _ => true
  end.

(** [String(v)], [`${v}`]: the text, or [None] when the conversion throws. *)
Definition convert (v : value) : option string :=
  if convertible v then Some (to_string v) else None.

(** The values whose conversion the model prints as JavaScript does:
    [undefined], [null], booleans, strings and the safe integers. *)
Definition exact (v : value) : bool :=
  match v with
  | VUndefined | VNull | VBool _ | VStr _ => true
  | VNum n => Z.leb (-9007199254740991) n && Z.leb n 9007199254740991
  | VArr _ | VObj _ => false
  end.

(** The message an [Error] built from [v] carries: [undefined] leaves the
    prototype's empty message, everything else is converted, and the
    constructor throws when the conversion does ([None]). *)
Definition error_message (v : value) : option string :=
  match v with
  | VUndefined => Some EmptyString
  | _ => convert v
  end.

End Js.
Export Js.

(** ** Errors *)

(** [class ProofGateError extends Error]: the inherited message and the
    three public fields. *)
Record ProofGateError : Type := MkProofGateError {
  message : string;
  code : string;
  statusCode : value;
  validationResult : value;
}.

(** How a computation ends when it does not return: with the SDK's own
    error thrown, with a built-in one ([TypeError], [SyntaxError], the
    [AbortError] of an aborted fetch), or not at all: [Never] is an awaited
    promise that is never settled, after which nothing runs, neither a
    [catch] nor a [finally]. *)
Inductive exn : Type :=
| Thrown (e : ProofGateError)
| Native (name : string) (msg : string)
| Never.

Definition exn_name (e : exn) : string :=
  match e with
  | Thrown _ => "ProofGateError"
  | Native n _ => n
  | Never => EmptyString
  end.

(** What a conversion to a string throws. *)
Definition cannot_convert : exn :=
  Native "TypeError" "Cannot convert object to primitive value".

(** [new ProofGateError(message, code, statusCode?, validationResult?)]:
    [super(message)] converts the message and may throw. *)
Definition new_ProofGateError (msg : value) (c : string) (status result : value)
  : exn + ProofGateError :=
  match error_message msg with
  | Some text =>
      inr {| message := text; code := c;
             statusCode := status; validationResult := result |}
  | None => inl cannot_convert
  end.

(** ** The world: object store, timers, network log *)

Definition loc := nat.
Definition timer_id := nat.

(** One call of the global [fetch]. *)
Record fetch_call : Type := MkFetchCall {
  url : string;
  method : value;
  headers : list (string * value);
  body : option (gmap string value);
}.

(** [guards] has one entry for each call in [fetch_log]: the delay of the
    armed timer whose firing aborts that call, or [None] when the signal
    handed to [fetch] belongs to no armed timer. *)
Record world : Type := MkWorld {
  heap : gmap loc (gmap string value);
  timers : gmap timer_id value;
  fetch_log : list fetch_call;
  guards : list (option value);
}.

Definition M (A : Type) : Type := world -> world * (exn + A).

Definition ret {A} (a : A) : M A := fun w => (w, inr a).
Definition throw {A} (e : exn) : M A := fun w => (w, inl e).
Definition bind {A B} (m : M A) (k : A -> M B) : M B :=
  fun w =>
    match m w with
    | (w', inl e) => (w', inl e)
    | (w', inr a) => k a w'
    end.

#[export] Instance M_ret : MRet M := @ret.
#[export] Instance M_bind : MBind M := fun A B k m => bind m k.

(** [throw new ProofGateError(...)] *)
Definition throw_new {A} (msg : value) (c : string) (status result : value) : M A :=
  match new_ProofGateError msg c status result with
  | inr e => throw (Thrown e)
  | inl thrown => throw thrown
  end.

(** [try { body } catch (error) { handler }] *)
Definition try_catch {A} (body : M A) (handler : exn -> M A) : M A :=
  fun w =>
    match body w with
    | (w', inl Never) => (w', inl Never)
    | (w', inl e) => handler e w'
    | (w', inr a) => (w', inr a)
    end.

(** [try { body } finally { fin }]: [fin] runs on both exits and the exit
    of [body] is kept unless [fin] itself throws. *)
Definition try_finally {A} (body : M A) (fin : M unit) : M A :=
  fun w =>
    match body w with
    | (w', inl Never) => (w', inl Never)
    | (w', r) =>
        match fin w' with
        | (w'', inl e) => (w'', inl e)
        | (w'', inr _) => (w'', r)
        end
    end.

(** The message of the [TypeError] raised by reading [data.k] off [null]
    or [undefined]. *)
Definition cannot_read (data : value) (k : string) : string :=
  "Cannot read properties of " ++ to_string data ++ " (reading '" ++ k ++ "')".

(** The members a spread [...o] copies from the object behind a
    reference; a reference that is not in the store stands for
    [undefined], from which a spread copies nothing. *)
Definition read_object (l : loc) : M (gmap string value) :=
  fun w => (w, inr (default ∅ (heap w !! l))).

Definition field (o : gmap string value) (k : string) : value :=
  default VUndefined (o !! k).

(** Reading [o.k] for an object reference [o]; the properties of
    [undefined] cannot be read. *)
Definition get_field (l : loc) (k : string) : M value :=
  fun w =>
    match heap w !! l with
    | Some o => (w, inr (field o k))
    | None => (w, inl (Native "TypeError" (cannot_read VUndefined k)))
    end.

(** An object literal: a new object at a reference not in use. *)
Definition alloc (o : gmap string value) : M loc :=
  fun w =>
    let l := fresh (dom (heap w)) in
    ({| heap := <[l := o]> (heap w); timers := timers w; fetch_log := fetch_log w;
        guards := guards w |},
     inr l).

(** [data.k] for a parsed value and one of the keys the client reads
    ([error], [message], [safe], [reason]): objects look the key up, [null]
    and [undefined] have no properties at all ([None]), and no other value
    has a property of such a name. *)
Definition prop (data : value) (k : string) : option value :=
  match data with
  | VObj fields => Some (default VUndefined (assoc_last k fields))
  | VNull | VUndefined => None
  | _ => Some VUndefined
  end.

Definition get_prop (data : value) (k : string) : M value :=
  match prop data k with
  | Some v => ret v
  | None => throw (Native "TypeError" (cannot_read data k))
  end.

(** [a || b] with [b] evaluated only when [a] is falsy. *)
Definition or_else (a : value) (b : M value) : M value :=
  if truthy a then ret a else b.

(** [JSON.stringify] of an object in the store: members whose value is
    [undefined] are left out of the document. *)
Definition json_stringify (o : gmap string value) : gmap string value :=
  omap to_json o.

(** ** Timers *)

(** [setTimeout(callback, delay)]: arms a timer and returns its handle. *)
Definition setTimeout (delay : value) : M timer_id :=
  fun w =>
    let t := fresh (dom (timers w)) in
    ({| heap := heap w; timers := <[t := delay]> (timers w); fetch_log := fetch_log w;
        guards := guards w |},
     inr t).

(** [clearTimeout(handle)]: disarms it; a timer that already fired is no
    longer armed and clearing it does nothing. *)
Definition clearTimeout (t : timer_id) : M unit :=
  fun w =>
    ({| heap := heap w; timers := delete t (timers w); fetch_log := fetch_log w;
        guards := guards w |},
     inr tt).

(** ** The transport *)

(** How reading the body of a response with [response.json()] ends. *)
Inductive body_outcome : Type :=
| Parsed (data : value)
| Malformed (msg : string)
| BodyTimedOut.

(** What happens to one call of [fetch].  [NoResponseInTime]: no response
    arrives before the timer whose callback aborts the call's signal
    fires, that is, within the delay that timer was armed with; the
    callback then calls [controller.abort()] and the pending promise
    rejects with an [AbortError].  [BodyTimedOut] is the same event while
    the body is read.
    [TransportFailure]: [fetch] rejects with a [TypeError].  [Malformed]:
    the body is not JSON and [response.json()] rejects with a
    [SyntaxError]. *)
Inductive fetch_outcome : Type :=
| NoResponseInTime
| TransportFailure (msg : string)
| Responds (status : Z) (b : body_outcome).

(** [response.ok] *)
Definition ok (status : Z) : bool := Z.leb 200 status && Z.leb status 299.

Definition abort_error : exn := Native "AbortError" "This operation was aborted".

(** No response comes before the timer [t] that guards the call fires.
    An armed timer fires: it leaves the armed set, its callback aborts the
    controller and the awaited promise rejects.  When [t] is not armed
    nothing ever aborts the call, and the promise is never settled. *)
Definition timer_fires {A} (t : timer_id) : M A :=
  fun w =>
    match timers w !! t with
    | Some _ =>
        ({| heap := heap w; timers := delete t (timers w); fetch_log := fetch_log w;
            guards := guards w |},
         inl abort_error)
    | None => (w, inl Never)
    end.

Section Client.

(** The service and the network between, as seen from [fetch]. *)
Variable transport : fetch_call -> fetch_outcome.

(** [await fetch(url, { ..., signal })], where [signal] belongs to the
    controller that timer [t] aborts.  Resolves to the response's status
    and the pending body. *)
Definition fetch (call : fetch_call) (t : timer_id) : M (Z * body_outcome) :=
  fun w =>
    let w' := {| heap := heap w; timers := timers w;
                 fetch_log := fetch_log w ++ [call];
                 guards := guards w ++ [timers w !! t] |} in
    match transport call with
    | NoResponseInTime => timer_fires t w'
    | TransportFailure msg => (w', inl (Native "TypeError" msg))
    | Responds status b => (w', inr (status, b))
    end.

(** [await response.json()] *)
Definition response_json (b : body_outcome) (t : timer_id) : M value :=
  match b with
  | Parsed data => ret data
  | Malformed msg => throw (Native "SyntaxError" msg)
  | BodyTimedOut => timer_fires t
  end.

(** *** [class ProofGate] *)

(** The client holds one private field, a reference to its merged
    configuration. *)
Record ProofGate : Type := MkProofGate { config : loc }.

(** [options] of the private [request]: [{ method?: string; body?: any }];
    the body, when given, is a reference to an object. *)
Record request_options : Type := MkOptions {
  opt_method : value;
  opt_body : option loc;
}.

Definition no_options : request_options :=
  {| opt_method := VUndefined; opt_body := None |}.

Definition dq : string := String "034"%char EmptyString.

Definition defaults : gmap string value :=
  {[ "baseUrl" := VStr "https://www.proofgate.xyz/api";
     "chainId" := VNum 56;
     "timeout" := VNum 30000 ]}.

(** [apiKey.startsWith('pg_')]; only strings have the method. *)
Definition startsWith (v : value) (p : string) : M bool :=
  match v with
  | VStr s => ret (String.prefix p s)
  | _ => throw (Native "TypeError" "config.apiKey.startsWith is not a function")
  end.

(** [constructor(config: ProofGateConfig)] *)
Definition constructor (cfg : loc) : M ProofGate :=
  apiKey ← get_field cfg "apiKey";
  if negb (truthy apiKey) then
    throw_new
      (VStr "API key is required. Get one at https://www.proofgate.xyz/dashboard")
      "MISSING_API_KEY" VUndefined VUndefined
  else
    pg ← startsWith apiKey "pg_";
    if negb pg then
      throw_new
        (VStr ("Invalid API key format. Keys start with " ++ dq ++ "pg_" ++ dq))
        "INVALID_API_KEY" VUndefined VUndefined
    else
      o ← read_object cfg;
      (* { baseUrl: ..., chainId: 56, timeout: 30000, ...config } *)
      this_config ← alloc (o ∪ defaults);
      mret {| config := this_config |}.

(** [options.body ? JSON.stringify(options.body) : undefined]: an object
    is truthy, and a reference that is not in the store stands for
    [undefined]. *)
Definition serialise_body (options : request_options)
  : M (option (gmap string value)) :=
  fun w =>
    match opt_body options with
    | Some b => (w, inr (json_stringify <$> heap w !! b))
    | None => (w, inr None)
    end.

(** [private async request<T>(path, options = {})] *)
Definition request (this : ProofGate) (path : string) (options : request_options)
  : M value :=
  baseUrl ← get_field (config this) "baseUrl";
  let url := to_string baseUrl ++ path in
  delay ← get_field (config this) "timeout";
  timeout ← setTimeout delay;
  try_finally
    (try_catch
       (apiKey ← get_field (config this) "apiKey";
        body ← serialise_body options;
        response ← fetch {| url := url;
                            method := or (opt_method options) (VStr "GET");
                            headers := [("Content-Type", VStr "application/json");
                                        ("X-API-Key", apiKey)];
                            body := body |} timeout;
        let '(status, b) := response in
        data ← response_json b timeout;
        if negb (ok status) then
          e ← get_prop data "error";
          msg ← or_else e (m ← get_prop data "message";
                           mret (or m (VStr ("HTTP " ++ pretty status))));
          throw_new msg "API_ERROR" (VNum status) VUndefined
        else
          mret data)
       (fun error =>
          if String.eqb (exn_name error) "AbortError" then
            throw_new (VStr "Request timeout") "TIMEOUT" VUndefined VUndefined
          else
            match error with
            | Thrown _ | Never => throw error
            | Native _ msg => throw_new (VStr msg) "NETWORK_ERROR" VUndefined VUndefined
            end))
    (clearTimeout timeout).

(** [async validate(request: ValidateRequest)] *)
Definition validate (this : ProofGate) (req : loc) : M value :=
  from ← get_field req "from";
  to ← get_field req "to";
  data ← get_field req "data";
  value ← get_field req "value";
  guardrailId ← get_field req "guardrailId";
  guardrailId ← or_else guardrailId (get_field (config this) "guardrailId");
  chainId ← get_field req "chainId";
  chainId ← or_else chainId (get_field (config this) "chainId");
  b ← alloc {[ "from" := from;
               "to" := to;
               "data" := data;
               "value" := or value (VStr "0");
               "guardrailId" := guardrailId;
               "chainId" := chainId ]};
  request this "/validate" {| opt_method := VStr "POST"; opt_body := Some b |}.

(** [async validateOrThrow(request: ValidateRequest)] *)
Definition validateOrThrow (this : ProofGate) (req : loc) : M value :=
  result ← validate this req;
  safe ← get_prop result "safe";
  if negb (truthy safe) then
    reason ← get_prop result "reason";
    throw_new reason "VALIDATION_FAILED" VUndefined result
  else
    mret result.

(** [async checkAgent(wallet: Address)] *)
Definition checkAgent (this : ProofGate) (wallet : string) : M value :=
  request this ("/agents/check?wallet=" ++ wallet) no_options.

(** [async getEvidence(validationId: string)] *)
Definition getEvidence (this : ProofGate) (validationId : string) : M value :=
  request this ("/evidence/" ++ validationId) no_options.

(** [async getUsage(wallet: Address)] *)
Definition getUsage (this : ProofGate) (wallet : string) : M value :=
  request this ("/validate?wallet=" ++ wallet) no_options.

(** The public operations, as one type, so that a statement can range
    over all of them. *)
Inductive operation : Type :=
| Validate (req : loc)
| ValidateOrThrow (req : loc)
| CheckAgent (wallet : string)
| GetEvidence (validationId : string)
| GetUsage (wallet : string).

Definition perform (this : ProofGate) (op : operation) : M value :=
  match op with
  | Validate req => validate this req
  | ValidateOrThrow req => validateOrThrow this req
  | CheckAgent wallet => checkAgent this wallet
  | GetEvidence validationId => getEvidence this validationId
  | GetUsage wallet => getUsage this wallet
  end.

End Client.

(** ** How a request ends

    The private [request] is the only place where the network is touched.
    The definitions below name, for a client whose configuration is in the
    store, the one call it logs and the way it settles; that [request]
    computes exactly these is proved further down. *)

(** The world once a client of merged configuration [cfg] has made
    [call]: the call is logged with its guard, the timer armed with the
    configured timeout, and that timer is gone again. *)
Definition log_call (cfg : gmap string value) (call : fetch_call) (w : world) : world :=
  {| heap := heap w; timers := timers w; fetch_log := fetch_log w ++ [call];
     guards := guards w ++ [Some (field cfg "timeout")] |}.

Definition timeout_error : ProofGateError :=
  {| message := "Request timeout"; code := "TIMEOUT";
     statusCode := VUndefined; validationResult := VUndefined |}.

Definition network_error (msg : string) : ProofGateError :=
  {| message := msg; code := "NETWORK_ERROR";
     statusCode := VUndefined; validationResult := VUndefined |}.

(** The value the error of a non-2xx response is built from:
    [data.error || data.message || `HTTP ${response.status}`]. *)
Definition api_message (e m : value) (status : Z) : value :=
  or e (or m (VStr ("HTTP " ++ pretty status))).

Definition api_error (e m : value) (status : Z) : ProofGateError :=
  {| message := to_string (api_message e m status); code := "API_ERROR";
     statusCode := VNum status; validationResult := VUndefined |}.

(** The settlement of a request as a function of what the transport did. *)
Definition settle (out : fetch_outcome) : exn + value :=
  match out with
  | NoResponseInTime | Responds _ BodyTimedOut => inl (Thrown timeout_error)
  | TransportFailure msg | Responds _ (Malformed msg) =>
      inl (Thrown (network_error msg))
  | Responds status (Parsed data) =>
      if ok status then inr data
      else
        match prop data "error", prop data "message" with
        | Some e, Some m =>
            if convertible (api_message e m status)
            then inl (Thrown (api_error e m status))
            else inl (Thrown (network_error "Cannot convert object to primitive value"))
        | _, _ => inl (Thrown (network_error (cannot_read data "error")))
        end
  end.

(** The call [request] hands to [fetch], given the merged configuration
    [cfg] and the serialised body. *)
Definition request_call (cfg : gmap string value) (path : string)
    (meth : value) (b : option (gmap string value)) : fetch_call :=
  {| url := to_string (field cfg "baseUrl") ++ path;
     method := or meth (VStr "GET");
     headers := [("Content-Type", VStr "application/json");
                 ("X-API-Key", field cfg "apiKey")];
     body := b |}.

(** The body [request] sends from the world [w]. *)
Definition sent_body (w : world) (options : request_options)
  : option (gmap string value) :=
  match opt_body options with
  | Some b => json_stringify <$> heap w !! b
  | None => None
  end.

(** The body [request] serialises: none, or the stored object. *)
Definition stored_body (w : world) (options : request_options)
  : option (option (gmap string value)) :=
  match opt_body options with
  | None => Some None
  | Some b => o ← heap w !! b; Some (Some (json_stringify o))
  end.

(** ** Effects that every step respects *)

(** [m] takes every world to one related to it by [R]. *)
Definition respects (R : world -> world -> Prop) {A} (m : M A) : Prop :=
  forall w, R w (fst (m w)).

(** The two relations used below. *)
Definition same_timers (w w' : world) : Prop := timers w' = timers w.
Definition heap_grows (w w' : world) : Prop := heap w ⊆ heap w'.

(** ** Construction *)

Definition missing_api_key : ProofGateError :=
  {| message := "API key is required. Get one at https://www.proofgate.xyz/dashboard";
     code := "MISSING_API_KEY";
     statusCode := VUndefined; validationResult := VUndefined |}.

Definition invalid_api_key : ProofGateError :=
  {| message := "Invalid API key format. Keys start with " ++ dq ++ "pg_" ++ dq;
     code := "INVALID_API_KEY";
     statusCode := VUndefined; validationResult := VUndefined |}.

(** The world after an object literal [o] was evaluated in [w]. *)
Definition with_object (o : gmap string value) (w : world) : world :=
  {| heap := <[fresh (dom (heap w)) := o]> (heap w);
     timers := timers w; fetch_log := fetch_log w;
     guards := guards w |}.

(** ** Validation *)

(** The object literal [validate] passes as [body], for a request object
    [r] and a merged configuration [cfg]. *)
Definition validate_body (cfg r : gmap string value) : gmap string value :=
  {[ "from" := field r "from";
     "to" := field r "to";
     "data" := field r "data";
     "value" := or (field r "value") (VStr "0");
     "guardrailId" := or (field r "guardrailId") (field cfg "guardrailId");
     "chainId" := or (field r "chainId") (field cfg "chainId") ]}.

(** The one network call of [validate]. *)
Definition validate_call (cfg r : gmap string value) : fetch_call :=
  request_call cfg "/validate" (VStr "POST")
    (Some (json_stringify (validate_body cfg r))).


(** The one call an operation hands to [fetch] for a merged configuration
    [cfg]; the validating operations first read the request object from
    the store. *)
Definition op_call (w : world) (cfg : gmap string value) (op : operation)
  : option fetch_call :=
  match op with
  | Validate req | ValidateOrThrow req =>
      r ← heap w !! req; Some (validate_call cfg r)
  | CheckAgent wallet =>
      Some (request_call cfg ("/agents/check?wallet=" ++ wallet) VUndefined None)
  | GetEvidence validationId =>
      Some (request_call cfg ("/evidence/" ++ validationId) VUndefined None)
  | GetUsage wallet =>
      Some (request_call cfg ("/validate?wallet=" ++ wallet) VUndefined None)
  end.

(** [this.config] of the client that [new ProofGate(cfg)] yields, when it
    yields one. *)
Definition merged_config (cfg : loc) (w : world) : option (gmap string value) :=
  match constructor cfg w with
  | (w', inr this) => heap w' !! config this
  | (_, inl _) => None
  end.

(** [new ProofGate(cfg)] followed by a use of the client. *)
Definition with_client {A} (cfg : loc) (k : ProofGate -> M A) : M A :=
  this ← constructor cfg; k this.

(** The bodies of the calls logged so far. *)
Definition transmitted (w : world) : list (option (gmap string value)) :=
  body <$> fetch_log w.

(** ** A caller

    A store with the caller's configuration object at reference 0 and its
    request object at reference 1, and some transports to run against. *)

Module Caller.

Definition world_of (cfg req : gmap string value) : world :=
  {| heap := {[ 0%nat := cfg; 1%nat := req ]}; timers := ∅; fetch_log := [];
     guards := [] |}.

Definition plain_config : gmap string value := {[ "apiKey" := VStr "pg_test_key" ]}.

Definition transfer : gmap string value :=
  {[ "from" := VStr "0x1234567890123456789012345678901234567890";
     "to" := VStr "0xabcdefabcdefabcdefabcdefabcdefabcdefabcd";
     "data" := VStr "0xa9059cbb" ]}.

(** A transport that answers every call in the same way. *)
Definition always (out : fetch_outcome) : fetch_call -> fetch_outcome :=
  fun _ => out.

(** The world once [new ProofGate({ apiKey: 'pg_test_key' })] has run, and
    the client it returned. *)
Definition ready : world :=
  with_object (plain_config ∪ defaults) (world_of plain_config transfer).

Definition client : ProofGate := {| config := 2%nat |}.

(** A merged configuration with the caller's own chain and guardrail. *)
Definition override_config : gmap string value :=
  {[ "apiKey" := VStr "pg_test_key"; "chainId" := VNum 8453;
     "guardrailId" := VStr "gr_default" ]} ∪ defaults.

(** A request whose optional fields are all there and all falsy. *)
Definition falsy_transfer : gmap string value :=
  {[ "from" := VStr "0x1234567890123456789012345678901234567890";
     "to" := VStr "0xabcdefabcdefabcdefabcdefabcdefabcdefabcd";
     "data" := VStr "0xa9059cbb";
     "value" := VStr EmptyString;
     "chainId" := VNum 0;
     "guardrailId" := VStr EmptyString ]}.

(** The world with [override_config] as the client's configuration at
    reference 2 and the request [req] at reference 1. *)
Definition overridden (req : gmap string value) : world :=
  with_object override_config (world_of ∅ req).

(** A caller's configuration with a key that is there and [undefined]. *)
Definition undefined_chain : gmap string value :=
  {[ "apiKey" := VStr "pg_test_key"; "chainId" := VUndefined ]}.

End Caller.

(** The client-side check [validateOrThrow] applies to what [validate]
    settled with. *)
Definition safety_check (settled : exn + value) : exn + value :=
  match settled with
  | inl e => inl e
  | inr result =>
      match prop result "safe", prop result "reason" with
      | Some safe, Some reason =>
          if truthy safe then inr result
          else
            match new_ProofGateError reason "VALIDATION_FAILED" VUndefined result with
            | inr e => inl (Thrown e)
            | inl thrown => inl thrown
            end
      | _, _ => inl (Native "TypeError" (cannot_read result "safe"))
      end
  end.

Module Service.

(** A verdict as the service words it. *)
Definition verdict (safe : bool) (reason : string) : value :=
  VObj [("validationId", VStr "val_abc123");
        ("result", VStr (if safe then "PASS" else "FAIL"));
        ("reason", VStr reason);
        ("safe", VBool safe);
        ("checks", VArr []);
        ("chainId", VNum 56)].

Definition blocked : value := verdict false "Infinite approval detected".
Definition passed : value := verdict true "All checks passed".

End Service.

(** ** The utility functions of the SDK *)

(** [export function createProofGate(config)] *)
Definition createProofGate (cfg : loc) : M ProofGate := constructor cfg.

(** [export async function isTransactionSafe(apiKey, tx)]: a client from
    the object literal [{ apiKey }], one [validate], and the verdict's
    [safe] as it is. *)
Definition isTransactionSafe (transport : fetch_call -> fetch_outcome)
    (apiKey : value) (tx : loc) : M value :=
  cfg ← alloc {[ "apiKey" := apiKey ]};
  pg ← constructor cfg;
  result ← validate transport pg tx;
  get_prop result "safe".

(** [error.message] of whatever was caught. *)
Definition exn_message (e : exn) : string :=
  match e with
  | Thrown e => message e
  | Native _ m => m
  | Never => EmptyString
  end.

(** The codes the shared request routine gives its failures. *)
Definition request_codes : list string := ["TIMEOUT"; "NETWORK_ERROR"; "API_ERROR"].

(** A 2xx status. *)
Definition success (status : Z) : Prop := 200 <= status <= 299.

(** The path each operation asks for. *)
Definition op_path (op : operation) : string :=
  match op with
  | Validate _ | ValidateOrThrow _ => "/validate"
  | CheckAgent wallet => "/agents/check?wallet=" ++ wallet
  | GetEvidence validationId => "/evidence/" ++ validationId
  | GetUsage wallet => "/validate?wallet=" ++ wallet
  end.

(** What [isTransactionSafe] makes of the way its [validate] settled. *)
Definition safe_of (settled : exn + value) : exn + value :=
  match settled with
  | inl e => inl e
  | inr result =>
      match prop result "safe" with
      | Some v => inr v
      | None => inl (Native "TypeError" (cannot_read result "safe"))
      end
  end.

(** The merged configuration of the client [isTransactionSafe] builds. *)
Definition quick_config (apiKey : value) : gmap string value :=
  {[ "apiKey" := apiKey ]} ∪ defaults.

(** ** The signer service of the examples

    [examples/signer-service/index.ts]: an HTTP service that holds the
    private key, asks the client to validate what it is asked to execute,
    and signs only then.  The wallet ([walletClient.sendTransaction]) and
    [parseEther] belong to another library and are parameters; of the
    console output only the conversions of its template literals are kept,
    since they can throw; a reply is the status and the object handed to
    [res.json]. *)

Module Signer.

(** The argument of [walletClient.sendTransaction]. *)
Record transaction : Type := MkTransaction {
  tx_to : value;
  tx_data : value;
  tx_value : Z;
}.

Record reply : Type := MkReply {
  http_status : Z;
  json : value;
}.

(** The world of the client, and the transactions handed to the wallet so
    far. *)
Record state : Type := MkState {
  sdk : world;
  submitted : list transaction;
}.

Definition Svc (A : Type) : Type := state -> state * (exn + A).

Definition svc_ret {A} (a : A) : Svc A := fun st => (st, inr a).
Definition svc_bind {A B} (m : Svc A) (k : A -> Svc B) : Svc B :=
  fun st =>
    match m st with
    | (st', inl e) => (st', inl e)
    | (st', inr a) => k a st'
    end.

#[global] Instance Svc_ret : MRet Svc := @svc_ret.
#[global] Instance Svc_bind : MBind Svc := fun A B k m => svc_bind m k.

(** A step of the client. *)
Definition lift {A} (m : M A) : Svc A :=
  fun st =>
    match m (sdk st) with
    | (w', r) => ({| sdk := w'; submitted := submitted st |}, r)
    end.

(** A step without effect that returns or throws. *)
Definition of_result {A} (r : exn + A) : Svc A := fun st => (st, r).

(** [try { body } catch (error) { handler }] *)
Definition catch {A} (body : Svc A) (handler : exn -> Svc A) : Svc A :=
  fun st =>
    match body st with
    | (st', inl Never) => (st', inl Never)
    | (st', inl e) => handler e st'
    | (st', inr a) => (st', inr a)
    end.

(** [const { to, data, value, guardrailId } = req.body], one property at a
    time; [null] and [undefined] cannot be destructured. *)
Definition destructure (body : value) (k : string) : exn + value :=
  match prop body k with
  | Some v => inr v
  | None =>
      inl (Native "TypeError"
             ("Cannot destructure property '" ++ k ++ "' of 'req.body' as it is "
              ++ to_string body ++ "."))
  end.

(** [console.log(`... ${v} ...`)]: the line is not kept, but the template
    literal converts [v] to a string, and that throws for some values. *)
Definition logged (v : value) : exn + unit :=
  if convertible v then inr tt else inl cannot_convert.

(** [data?.slice(0, 20)]: nothing is called on [null] and [undefined],
    strings and arrays have the method, other values do not. *)
Definition preview (data : value) : exn + value :=
  match data with
  | VUndefined | VNull => inr VUndefined
  | VStr s => inr (VStr (substring 0 20 s))
  | VArr xs => inr (VArr (take 20 xs))
  | _ => inl (Native "TypeError" "data?.slice is not a function")
  end.

(** The three log lines before the [try], for the destructured [to],
    [value] and [data]. *)
Definition announce (to value data : Js.value) : exn + unit :=
  match logged to with
  | inl e => inl e
  | inr _ =>
      match logged (or value (VStr "0")) with
      | inl e => inl e
      | inr _ =>
          match preview data with
          | inl e => inl e
          | inr head => logged head
          end
      end
  end.

(** The [validation] member of a reply. *)
Definition echo (result reason checks : value) : value :=
  VObj [("result", result); ("reason", reason); ("checks", checks)].

Section Service.

Variable transport : fetch_call -> fetch_outcome.

(** [walletClient.sendTransaction]: the hash, or what it throws. *)
Variable sendTransaction : transaction -> exn + string.

(** [parseEther] of viem: the amount, or what it throws. *)
Variable parseEther : value -> exn + Z.

(** [account.address] *)
Variable address : string.

(** [const proofgate = new ProofGate({ ... })] *)
Variable proofgate : ProofGate.

(** The call of the wallet, recorded whether it succeeds or not. *)
Definition send (tx : transaction) : Svc string :=
  fun st =>
    ({| sdk := sdk st; submitted := submitted st ++ [tx] |}, sendTransaction tx).

(** [{ result: validation.result, reason: validation.reason,
       checks: validation.checks }] *)
Definition echo_of (validation : Js.value) : Svc Js.value :=
  result ← lift (get_prop validation "result");
  reason ← lift (get_prop validation "reason");
  checks ← lift (get_prop validation "checks");
  mret (echo result reason checks).

(** Steps 2 and 3 of the handler: what follows [await proofgate.validate]
    inside the [try]. *)
Definition after_validation (to data value validation : Js.value) : Svc reply :=
  result ← lift (get_prop validation "result");
  _ ← of_result (logged result);
  safe ← lift (get_prop validation "safe");
  if negb (truthy safe) then
    reason ← lift (get_prop validation "reason");
    _ ← of_result (logged reason);
    shown ← echo_of validation;
    mret {| http_status := 400;
            json := VObj [("success", VBool false);
                          ("error", VStr ("Transaction blocked by ProofGate: "
                                          ++ to_string reason));
                          ("validation", shown)] |}
  else
    amount ← (if truthy value then of_result (parseEther value) else mret 0);
    txHash ← send {| tx_to := to; tx_data := or data (VStr "0x"); tx_value := amount |};
    shown ← echo_of validation;
    mret {| http_status := 200;
            json := VObj [("success", VBool true);
                          ("txHash", VStr txHash);
                          ("validation", shown)] |}.

(** [app.post('/execute', async (req, res) => { ... })], for [req.body]. *)
Definition execute (body : Js.value) : Svc reply :=
  to ← of_result (destructure body "to");
  data ← of_result (destructure body "data");
  value ← of_result (destructure body "value");
  guardrailId ← of_result (destructure body "guardrailId");
  _ ← of_result (announce to value data);
  catch
    (request ← lift (alloc {[ "from" := VStr address;
                              "to" := to;
                              "data" := or data (VStr "0x");
                              "value" := or value (VStr "0");
                              "guardrailId" := guardrailId ]});
     validation ← lift (validate transport proofgate request);
     after_validation to data value validation)
    (fun error =>
       mret {| http_status := 500;
               json := VObj [("success", VBool false);
                             ("error", VStr (exn_message error))] |}).

End Service.

(** The configuration checks at the head of the file and the construction
    of the client, for the two environment variables. *)
Definition setup (PRIVATE_KEY PROOFGATE_API_KEY : value) : M ProofGate :=
  if negb (truthy PRIVATE_KEY) then
    throw (Native "Error" "PRIVATE_KEY environment variable required")
  else if negb (truthy PROOFGATE_API_KEY) then
    throw (Native "Error" "PROOFGATE_API_KEY environment variable required")
  else
    cfg ← alloc {[ "apiKey" := PROOFGATE_API_KEY; "chainId" := VNum 8453 ]};
    constructor cfg.

(** The configuration object the service builds its client from. *)
Definition service_config (key : value) : gmap string value :=
  {[ "apiKey" := key; "chainId" := VNum 8453 ]}.

(** [req.body.k], or [undefined]. *)
Definition member (body : value) (k : string) : value :=
  default VUndefined (prop body k).

(** How the three log lines before the [try] end for [req.body]. *)
Definition announced (body : value) : exn + unit :=
  announce (member body "to") (member body "value") (member body "data").

(** The request object the handler has validated, for [req.body]. *)
Definition validated (address : string) (body : value) : gmap string value :=
  {[ "from" := VStr address;
     "to" := member body "to";
     "data" := or (member body "data") (VStr "0x");
     "value" := or (member body "value") (VStr "0");
     "guardrailId" := member body "guardrailId" ]}.

(** The reply to a blocked request and to a failed one. *)
Definition blocked_reply (verdict : value) : reply :=
  {| http_status := 400;
     json := VObj [("success", VBool false);
                   ("error", VStr ("Transaction blocked by ProofGate: "
                                   ++ to_string (member verdict "reason")));
                   ("validation", echo (member verdict "result")
                                       (member verdict "reason")
                                       (member verdict "checks"))] |}.

Definition failed_reply (msg : string) : reply :=
  {| http_status := 500;
     json := VObj [("success", VBool false); ("error", VStr msg)] |}.

Definition done_reply (txHash : string) (verdict : value) : reply :=
  {| http_status := 200;
     json := VObj [("success", VBool true);
                   ("txHash", VStr txHash);
                   ("validation", echo (member verdict "result")
                                       (member verdict "reason")
                                       (member verdict "checks"))] |}.

(** What the [catch] of the handler makes of the way its [try] ended. *)
Definition handled (r : state * (exn + reply)) : state * (exn + reply) :=
  match r with
  | (st, inl Never) => (st, inl Never)
  | (st, inl e) => (st, inr (failed_reply (exn_message e)))
  | (st, inr a) => (st, inr a)
  end.

(** The end of the [try] for a verdict that has properties. *)
Definition conclude (sendTransaction : transaction -> exn + string)
    (parseEther : value -> exn + Z) (to data value verdict : value) (st : state)
  : state * (exn + reply) :=
  if negb (convertible (member verdict "result")) then (st, inl cannot_convert)
  else if truthy (member verdict "safe") then
    match (if truthy value then parseEther value else inr 0) with
    | inl e => (st, inl e)
    | inr amount =>
        let tx := {| tx_to := to; tx_data := or data (VStr "0x"); tx_value := amount |} in
        ({| sdk := sdk st; submitted := submitted st ++ [tx] |},
         match sendTransaction tx with
         | inl e => inl e
         | inr txHash => inr (done_reply txHash verdict)
         end)
    end
  else if convertible (member verdict "reason") then (st, inr (blocked_reply verdict))
  else (st, inl cannot_convert).

(** The state of the service once a client of merged configuration [cfg]
    has validated the request object [r]: the request object and the body
    are in the store and the call is logged. *)
Definition validating (cfg r : gmap string value) (st : state) : state :=
  {| sdk := log_call cfg (validate_call cfg r)
              (with_object (validate_body cfg r) (with_object r (sdk st)));
     submitted := submitted st |}.

(** A wallet that accepts everything, and one that refuses everything. *)
Definition accepting : transaction -> exn + string :=
  fun _ => inr "0xhash".

Definition refusing : transaction -> exn + string :=
  fun _ => inl (Native "Error" "insufficient funds").

(** A stand-in for [parseEther] that knows two amounts. *)
Definition whole_ether (v : value) : exn + Z :=
  match v with
  | VStr "1" => inr 1000000000000000000
  | VStr "0" => inr 0
  | _ => inl (Native "InvalidDecimalNumberError" "not a decimal number")
  end.

(** The state once the service of the example is set up, with the client
    of [Caller.client] built from [service_config]. *)
Definition started : state :=
  {| sdk := with_object (service_config (VStr "pg_test_key") ∪ defaults)
              (Caller.world_of (service_config (VStr "pg_test_key")) ∅);
     submitted := [] |}.

Definition swap : value :=
  VObj [("to", VStr "0xabcdefabcdefabcdefabcdefabcdefabcdefabcd");
        ("data", VStr "0x38ed1739");
        ("value", VStr "1")].

(** A body whose [to] is an object that cannot be converted to a string. *)
Definition unloggable : value :=
  VObj [("to", VObj [("toString", VNull)])].

End Signer.

(** * Facts about the embedding *)

Lemma prop_error_message (data : value) :
  prop data "error" = None <-> prop data "message" = None.
Proof. by destruct data. Qed.

Lemma fresh_timer_gone (m : gmap timer_id value) (d : value) :
  delete (fresh (dom m)) (<[fresh (dom m) := d]> m) = m.
Proof. apply delete_insert_id, not_elem_of_dom, is_fresh. Qed.

(** The value a non-2xx error is built from is a string or a truthy
    member of the body: it is never [undefined]. *)
Lemma api_message_defined (e m : value) (status : Z) :
  api_message e m status <> VUndefined.
Proof.
  unfold api_message, or.
  destruct (truthy e) eqn:He; [by destruct e|].
  destruct (truthy m) eqn:Hm; [by destruct m|done].
Qed.

Lemma error_message_convert (v : value) :
  v <> VUndefined -> error_message v = convert v.
Proof. by destruct v. Qed.


Lemma get_field_run (l : loc) (k : string) (w : world) (o : gmap string value) :
  heap w !! l = Some o -> get_field l k w = (w, inr (field o k)).
Proof. intros Hl. unfold get_field. by rewrite Hl. Qed.

Lemma get_field_dangling (l : loc) (k : string) (w : world) :
  heap w !! l = None ->
  get_field l k w = (w, inl (Native "TypeError" (cannot_read VUndefined k))).
Proof. intros Hl. unfold get_field. by rewrite Hl. Qed.

Lemma serialise_body_run (options : request_options) (w w' : world) :
  heap w' = heap w ->
  serialise_body options w' = (w', inr (sent_body w options)).
Proof.
  unfold serialise_body, sent_body. intros ->.
  by destruct (opt_body options).
Qed.

Lemma stored_body_sent (options : request_options) (w : world)
    (b : option (gmap string value)) :
  stored_body w options = Some b -> sent_body w options = b.
Proof.
  unfold stored_body, sent_body. destruct (opt_body options) as [l|]; [|by intros [= <-]].
  destruct (heap w !! l) as [o|]; [|done]. by intros [= <-].
Qed.

Section RequestFacts.

Variable transport : fetch_call -> fetch_outcome.

(** A request of a client whose configuration is in the store logs one
    call, guarded by a timer armed with the configured timeout, and ends
    as [settle] says. *)
Lemma request_settles (this : ProofGate) (path : string) (options : request_options)
    (w : world) (cfg : gmap string value) :
  heap w !! config this = Some cfg ->
  let call := request_call cfg path (opt_method options) (sent_body w options) in
  request transport this path options w =
    (log_call cfg call w, settle (transport call)).
Proof.
  intros Hcfg call.
  unfold request, try_finally, try_catch, get_field, fetch, response_json,
    timer_fires, clearTimeout, setTimeout, get_prop, or_else, throw_new,
    new_ProofGateError, mbind, M_bind, bind, mret, M_ret, ret, throw.
  cbn [heap timers fetch_log guards]. rewrite Hcfg.
  cbn [heap timers fetch_log guards]. rewrite Hcfg.
  cbn [heap timers fetch_log guards]. rewrite Hcfg.
  cbn [heap timers fetch_log guards].
  erewrite (serialise_body_run options w); [|reflexivity].
  cbn [heap timers fetch_log guards]. rewrite !lookup_insert_eq.
  fold (request_call cfg path (opt_method options) (sent_body w options)).
  fold call.
  assert (Hgone : forall d, delete (fresh (dom (timers w)))
                     (<[fresh (dom (timers w)) := d]> (timers w)) = timers w)
    by (intros; apply fresh_timer_gone).
  assert (Hgone' : delete (fresh (dom (timers w))) (timers w) = timers w)
    by (apply delete_id, not_elem_of_dom, is_fresh).
  unfold settle, log_call.
  destruct (transport call) as [|msg|status [data|msg|]].
  - cbn. rewrite Hgone. cbn. by rewrite Hgone'.
  - cbn. by rewrite Hgone.
  - destruct (ok status); cbn; [by rewrite Hgone|].
    destruct (prop data "error") as [e|] eqn:He.
    + destruct (prop data "message") as [m|] eqn:Hm;
        [|by apply prop_error_message in Hm; rewrite Hm in He].
      pose proof (api_message_defined e m status) as Hdef.
      unfold api_error, api_message, or in Hdef |- *.
      destruct (truthy e); cbv beta iota;
        rewrite (error_message_convert _ Hdef); unfold convert;
        match goal with |- context [convertible ?v] => destruct (convertible v) end;
        cbn; by rewrite Hgone.
    + cbn. by rewrite Hgone.
  - cbn. by rewrite Hgone.
  - cbn. rewrite lookup_insert_eq. cbn. rewrite Hgone. cbn. by rewrite Hgone'.
Qed.

Lemma request_run (this : ProofGate) (path : string) (options : request_options)
    (w : world) (cfg : gmap string value) (b : option (gmap string value)) :
  heap w !! config this = Some cfg ->
  stored_body w options = Some b ->
  request transport this path options w =
    (log_call cfg (request_call cfg path (opt_method options) b) w,
     settle (transport (request_call cfg path (opt_method options) b))).
Proof.
  intros Hcfg Hb. rewrite (request_settles _ _ _ _ _ Hcfg). cbn zeta.
  by rewrite (stored_body_sent _ _ _ Hb).
Qed.

(** Whatever happens, [request] leaves the store and the armed timers as
    it found them: the timer it arms is gone when it settles. *)
Lemma request_frame (this : ProofGate) (path : string) (options : request_options)
    (w : world) :
  heap (fst (request transport this path options w)) = heap w /\
  timers (fst (request transport this path options w)) = timers w.
Proof.
  destruct (heap w !! config this) as [cfg|] eqn:Hcfg.
  - by rewrite (request_settles _ _ _ _ _ Hcfg).
  - assert (request transport this path options w =
      (w, inl (Native "TypeError" (cannot_read VUndefined "baseUrl")))) as ->; [|done].
    unfold request, mbind at 1, M_bind at 1, bind at 1.
    by rewrite (get_field_dangling _ _ _ Hcfg).
Qed.

End RequestFacts.

(** A relation between the world before and after that is reflexive and
    transitive and respected by each step is respected by their sequence. *)

Section Respects.

Variable R : world -> world -> Prop.
Hypothesis R_refl : forall w, R w w.
Hypothesis R_trans : forall w1 w2 w3, R w1 w2 -> R w2 w3 -> R w1 w3.

Lemma respects_ret {A} (a : A) : respects R (mret a).
Proof. intros w. apply R_refl. Qed.

Lemma respects_throw {A} (e : exn) : respects R (@throw A e).
Proof. intros w. apply R_refl. Qed.

Lemma respects_throw_new {A} (msg : value) (c : string) (status result : value) :
  respects R (@throw_new A msg c status result).
Proof.
  intros w. unfold throw_new.
  destruct (new_ProofGateError msg c status result); apply R_refl.
Qed.

Lemma respects_bind {A B} (m : M A) (k : A -> M B) :
  respects R m -> (forall a, respects R (k a)) -> respects R (m ≫= k).
Proof.
  intros Hm Hk w. unfold mbind, M_bind, bind.
  specialize (Hm w). destruct (m w) as [w' [e|a]]; [done|].
  eapply R_trans; [exact Hm|apply Hk].
Qed.

Lemma respects_get_field (l : loc) (k : string) : respects R (get_field l k).
Proof.
  intros w. unfold get_field. destruct (heap w !! l); apply R_refl.
Qed.

Lemma respects_get_prop (data : value) (k : string) : respects R (get_prop data k).
Proof. intros w. unfold get_prop. destruct (prop data k); apply R_refl. Qed.

Lemma respects_or_else (a : value) (b : M value) :
  respects R b -> respects R (or_else a b).
Proof. intros Hb w. unfold or_else. destruct (truthy a); [apply R_refl|apply Hb]. Qed.

Lemma respects_startsWith (v : value) (p : string) : respects R (startsWith v p).
Proof. intros w. destruct v; cbn; apply R_refl. Qed.

End Respects.

Lemma same_timers_refl w : same_timers w w.
Proof. done. Qed.
Lemma same_timers_trans w1 w2 w3 :
  same_timers w1 w2 -> same_timers w2 w3 -> same_timers w1 w3.
Proof. unfold same_timers. congruence. Qed.

Lemma heap_grows_refl w : heap_grows w w.
Proof. unfold heap_grows. reflexivity. Qed.
Lemma heap_grows_trans w1 w2 w3 :
  heap_grows w1 w2 -> heap_grows w2 w3 -> heap_grows w1 w3.
Proof. unfold heap_grows. intros. by etrans. Qed.

Lemma alloc_same_timers (o : gmap string value) : respects same_timers (alloc o).
Proof. by intros w. Qed.

Lemma alloc_heap_grows (o : gmap string value) : respects heap_grows (alloc o).
Proof.
  intros w. unfold heap_grows, alloc. cbn.
  apply insert_subseteq, not_elem_of_dom, is_fresh.
Qed.

Create HintDb respects.
#[export] Hint Resolve same_timers_refl same_timers_trans heap_grows_refl
  heap_grows_trans : respects.
#[export] Hint Resolve respects_ret respects_throw respects_throw_new respects_get_field
  respects_get_prop respects_or_else respects_startsWith
  alloc_same_timers alloc_heap_grows : respects.

Ltac respects_steps :=
  repeat (intros; first
    [ solve [eauto with respects]
    | apply respects_bind
    | match goal with
      | |- respects _ (if ?b then _ else _) => destruct b
      | |- respects _ (let '(_, _) := ?p in _) => destruct p
      end ]).

Lemma respects_read_object (R : world -> world -> Prop) (l : loc) :
  (forall w, R w w) -> respects R (read_object l).
Proof. intros HR w. apply HR. Qed.

#[export] Hint Resolve respects_read_object : respects.

Lemma prefix_nonempty (p s : string) :
  p <> EmptyString -> String.prefix p s = true -> s <> EmptyString.
Proof. intros Hp Hs ->. by destruct p. Qed.

Lemma constructor_missing (cfg : loc) (w : world) (o : gmap string value) :
  heap w !! cfg = Some o ->
  truthy (field o "apiKey") = false ->
  constructor cfg w = (w, inl (Thrown missing_api_key)).
Proof.
  intros Hcfg Hkey. unfold constructor.
  unfold mbind at 1, M_bind at 1, bind at 1. rewrite (get_field_run _ _ _ _ Hcfg).
  by rewrite Hkey.
Qed.

Lemma constructor_invalid (cfg : loc) (w : world) (o : gmap string value) (s : string) :
  heap w !! cfg = Some o ->
  field o "apiKey" = VStr s ->
  s <> EmptyString ->
  String.prefix "pg_" s = false ->
  constructor cfg w = (w, inl (Thrown invalid_api_key)).
Proof.
  intros Hcfg Hkey Hne Hpre. unfold constructor.
  unfold mbind at 1, M_bind at 1, bind at 1. rewrite (get_field_run _ _ _ _ Hcfg).
  rewrite Hkey. cbn [truthy]. destruct (String.eqb_spec s EmptyString) as [|_]; [done|].
  unfold startsWith, mbind, M_bind, bind, ret. by rewrite Hpre.
Qed.

Lemma constructor_accepts (cfg : loc) (w : world) (o : gmap string value) (s : string) :
  heap w !! cfg = Some o ->
  field o "apiKey" = VStr s ->
  String.prefix "pg_" s = true ->
  constructor cfg w =
    (with_object (o ∪ defaults) w, inr {| config := fresh (dom (heap w)) |}).
Proof.
  intros Hcfg Hkey Hpre. unfold constructor.
  unfold mbind at 1, M_bind at 1, bind at 1. rewrite (get_field_run _ _ _ _ Hcfg).
  rewrite Hkey. cbn [truthy].
  destruct (String.eqb_spec s EmptyString) as [Hs|_];
    [by apply prefix_nonempty in Hpre|].
  unfold startsWith, read_object, alloc, with_object, mbind, M_bind, bind, mret, M_ret, ret.
  rewrite Hpre. cbn [negb heap]. by rewrite Hcfg.
Qed.

(** A truthy key that is not a string has no [startsWith] method. *)
Lemma constructor_not_string (cfg : loc) (w : world) (o : gmap string value) :
  heap w !! cfg = Some o ->
  truthy (field o "apiKey") = true ->
  (forall s, field o "apiKey" <> VStr s) ->
  constructor cfg w =
    (w, inl (Native "TypeError" "config.apiKey.startsWith is not a function")).
Proof.
  intros Hcfg Htr Hns. unfold constructor.
  unfold mbind at 1, M_bind at 1, bind at 1. rewrite (get_field_run _ _ _ _ Hcfg).
  rewrite Htr. cbn [negb].
  destruct (field o "apiKey") as [| |b|n|s|xs|fs]; try done.
  by destruct (Hns s).
Qed.

(** Construction succeeds only through the last branch. *)
Lemma constructor_accepted_inv (cfg : loc) (w w' : world) (this : ProofGate) :
  constructor cfg w = (w', inr this) ->
  exists o s,
    heap w !! cfg = Some o /\ field o "apiKey" = VStr s /\
    String.prefix "pg_" s = true /\
    w' = with_object (o ∪ defaults) w /\
    config this = fresh (dom (heap w)).
Proof.
  intros Hc. destruct (heap w !! cfg) as [o|] eqn:Hcfg.
  - destruct (truthy (field o "apiKey")) eqn:Htr.
    + destruct (field o "apiKey") as [| |b|n|s|xs|fs] eqn:Hkey; try done.
      all: try (rewrite (constructor_not_string _ _ _ Hcfg) in Hc;
                [done | by rewrite Hkey | by rewrite Hkey]).
      destruct (String.prefix "pg_" s) eqn:Hpre.
      * rewrite (constructor_accepts _ _ _ _ Hcfg Hkey Hpre) in Hc.
        injection Hc as <- <-. by exists o, s.
      * assert (s <> EmptyString) by (by intros ->).
        by rewrite (constructor_invalid _ _ _ _ Hcfg Hkey) in Hc.
    + by rewrite (constructor_missing _ _ _ Hcfg Htr) in Hc.
  - unfold constructor in Hc. unfold mbind at 1, M_bind at 1, bind at 1 in Hc.
    by rewrite (get_field_dangling _ _ _ Hcfg) in Hc.
Qed.

Lemma constructor_heap_grows (cfg : loc) : respects heap_grows (constructor cfg).
Proof. unfold constructor. respects_steps. Qed.

Lemma bind_run {A B} (m : M A) (k : A -> M B) (w w' : world) (a : A) :
  m w = (w', inr a) -> (m ≫= k) w = k a w'.
Proof. intros Hm. unfold mbind, M_bind, bind. by rewrite Hm. Qed.

Lemma or_else_field_run (a : value) (l : loc) (k : string) (w : world)
    (o : gmap string value) :
  heap w !! l = Some o ->
  or_else a (get_field l k) w = (w, inr (or a (field o k))).
Proof.
  intros Hl. unfold or_else, or. destruct (truthy a); [done|].
  by apply get_field_run.
Qed.

Section ClientFacts.

Variable transport : fetch_call -> fetch_outcome.

Lemma validate_run (this : ProofGate) (req : loc) (w : world)
    (cfg r : gmap string value) :
  heap w !! config this = Some cfg ->
  heap w !! req = Some r ->
  validate transport this req w =
    (log_call cfg (validate_call cfg r) (with_object (validate_body cfg r) w),
     settle (transport (validate_call cfg r))).
Proof.
  intros Hcfg Hreq. unfold validate.
  do 5 (erewrite bind_run; [|by apply get_field_run]).
  erewrite bind_run; [|by apply or_else_field_run].
  erewrite bind_run; [|by apply get_field_run].
  erewrite bind_run; [|by apply or_else_field_run].
  erewrite bind_run; [|reflexivity].
  fold (validate_body cfg r). fold (with_object (validate_body cfg r) w).
  assert (Hfresh : fresh (dom (heap w)) <> config this).
  { intros Heq. apply (is_fresh (dom (heap w))). rewrite Heq.
    apply elem_of_dom. by eexists. }
  erewrite request_run.
  - reflexivity.
  - cbn. by rewrite lookup_insert_ne.
  - unfold stored_body. cbn. by rewrite lookup_insert_eq.
Qed.

Lemma request_same_timers this path options :
  respects same_timers (request transport this path options).
Proof. intros w. apply request_frame. Qed.

Lemma request_heap_grows this path options :
  respects heap_grows (request transport this path options).
Proof.
  intros w. unfold heap_grows.
  by destruct (request_frame transport this path options w) as [-> _].
Qed.

Hint Resolve request_same_timers request_heap_grows : respects.

Lemma validate_same_timers this req :
  respects same_timers (validate transport this req).
Proof. unfold validate. respects_steps. Qed.

Lemma validate_heap_grows this req :
  respects heap_grows (validate transport this req).
Proof. unfold validate. respects_steps. Qed.

Hint Resolve validate_same_timers validate_heap_grows : respects.

Lemma perform_same_timers this op :
  respects same_timers (perform transport this op).
Proof.
  destruct op; cbn [perform];
    unfold validateOrThrow, checkAgent, getEvidence, getUsage; respects_steps.
Qed.

Lemma perform_heap_grows this op :
  respects heap_grows (perform transport this op).
Proof.
  destruct op; cbn [perform];
    unfold validateOrThrow, checkAgent, getEvidence, getUsage; respects_steps.
Qed.

(** The client-side check of [validateOrThrow] touches nothing. *)
Lemma validateOrThrow_world this req w :
  fst (validateOrThrow transport this req w) = fst (validate transport this req w).
Proof.
  unfold validateOrThrow, mbind at 1, M_bind at 1, bind at 1.
  destruct (validate transport this req w) as [w' [e|result]]; [done|].
  unfold get_prop, mbind, M_bind, bind, ret, throw, mret, M_ret, ret.
  destruct (prop result "safe") as [safe|]; [|done].
  destruct (truthy safe); [done|]. cbn.
  destruct (prop result "reason") as [reason|]; [|done].
  unfold throw_new, throw.
  by destruct (new_ProofGateError reason "VALIDATION_FAILED" VUndefined result).
Qed.

Lemma validateOrThrow_run (this : ProofGate) (req : loc) (w : world)
    (cfg r : gmap string value) :
  heap w !! config this = Some cfg ->
  heap w !! req = Some r ->
  validateOrThrow transport this req w =
    (log_call cfg (validate_call cfg r) (with_object (validate_body cfg r) w),
     safety_check (settle (transport (validate_call cfg r)))).
Proof.
  intros Hcfg Hreq. unfold validateOrThrow, mbind at 1, M_bind at 1, bind at 1.
  rewrite (validate_run _ _ _ _ _ Hcfg Hreq).
  destruct (settle (transport (validate_call cfg r))) as [e|result]; [done|].
  unfold safety_check, get_prop, mbind, M_bind, bind, ret, throw_new, throw,
    mret, M_ret, ret.
  destruct (prop result "safe") as [safe|] eqn:Hsafe.
  - assert (exists reason, prop result "reason" = Some reason) as [reason Hreason]
      by (destruct result; try done; eauto).
    rewrite Hreason. destruct (truthy safe); [done|]. cbn [negb].
    by destruct (new_ProofGateError reason "VALIDATION_FAILED" VUndefined result).
  - by destruct result.
Qed.

(** Every operation logs exactly the call [op_call] names; it fails the
    way the request settles when that is a failure, and the operations
    other than [validateOrThrow] return what the request settles with. *)
Lemma perform_run (this : ProofGate) (op : operation) (w : world)
    (cfg : gmap string value) (call : fetch_call) :
  heap w !! config this = Some cfg ->
  op_call w cfg op = Some call ->
  fetch_log (fst (perform transport this op w)) = (fetch_log w ++ [call])%list /\
  snd (perform transport this op w) =
    match op with
    | ValidateOrThrow _ => safety_check (settle (transport call))
    | _ => settle (transport call)
    end.
Proof.
  intros Hcfg Hcall. destruct op as [req|req|wallet|validationId|wallet];
    cbn [perform op_call] in *.
  - destruct (heap w !! req) as [r|] eqn:Hreq; [|done]. injection Hcall as <-.
    by rewrite (validate_run _ _ _ _ _ Hcfg Hreq).
  - destruct (heap w !! req) as [r|] eqn:Hreq; [|done]. injection Hcall as <-.
    by rewrite (validateOrThrow_run _ _ _ _ _ Hcfg Hreq).
  - injection Hcall as <-. unfold checkAgent.
    by rewrite (request_run transport _ _ no_options _ _ None Hcfg eq_refl).
  - injection Hcall as <-. unfold getEvidence.
    by rewrite (request_run transport _ _ no_options _ _ None Hcfg eq_refl).
  - injection Hcall as <-. unfold getUsage.
    by rewrite (request_run transport _ _ no_options _ _ None Hcfg eq_refl).
Qed.

(** The one call of an operation is guarded by a timer armed with the
    configured timeout. *)
Lemma perform_guards (this : ProofGate) (op : operation) (w : world)
    (cfg : gmap string value) (call : fetch_call) :
  heap w !! config this = Some cfg ->
  op_call w cfg op = Some call ->
  guards (fst (perform transport this op w))
    = (guards w ++ [Some (field cfg "timeout")])%list.
Proof.
  intros Hcfg Hcall. destruct op as [req|req|wallet|validationId|wallet];
    cbn [perform op_call] in *.
  - destruct (heap w !! req) as [r|] eqn:Hreq; [|done].
    by rewrite (validate_run _ _ _ _ _ Hcfg Hreq).
  - destruct (heap w !! req) as [r|] eqn:Hreq; [|done].
    by rewrite (validateOrThrow_run _ _ _ _ _ Hcfg Hreq).
  - unfold checkAgent.
    by rewrite (request_run transport _ _ no_options _ _ None Hcfg eq_refl).
  - unfold getEvidence.
    by rewrite (request_run transport _ _ no_options _ _ None Hcfg eq_refl).
  - unfold getUsage.
    by rewrite (request_run transport _ _ no_options _ _ None Hcfg eq_refl).
Qed.

Lemma perform_fails (this : ProofGate) (op : operation) (w : world)
    (cfg : gmap string value) (call : fetch_call) (e : exn) :
  heap w !! config this = Some cfg ->
  op_call w cfg op = Some call ->
  settle (transport call) = inl e ->
  snd (perform transport this op w) = inl e.
Proof.
  intros Hcfg Hcall He.
  destruct (perform_run _ _ _ _ _ Hcfg Hcall) as [_ ->].
  rewrite He. by destruct op.
Qed.

End ClientFacts.

(** *** The transmitted body *)

Lemma to_json_None (v : value) : to_json v = None <-> v = VUndefined.
Proof. by destruct v. Qed.

Lemma json_stringify_lookup (o : gmap string value) (k : string) :
  json_stringify o !! k = o !! k ≫= to_json.
Proof. unfold json_stringify. apply lookup_omap. Qed.

Lemma validate_body_dom (cfg r : gmap string value) :
  dom (validate_body cfg r)
    = {[ "from"; "to"; "data"; "value"; "guardrailId"; "chainId" ]}.
Proof.
  unfold validate_body. rewrite !dom_insert_L, dom_singleton_L. set_solver.
Qed.

Lemma transmitted_dom (cfg r : gmap string value) :
  dom (json_stringify (validate_body cfg r))
    ⊆ {[ "from"; "to"; "data"; "value"; "guardrailId"; "chainId" ]}.
Proof.
  rewrite <- (validate_body_dom cfg r). unfold json_stringify.
  apply dom_omap_subseteq.
Qed.

Lemma transmitted_fields (cfg r : gmap string value) :
  let b := json_stringify (validate_body cfg r) in
  b !! "from" = to_json (field r "from") /\
  b !! "to" = to_json (field r "to") /\
  b !! "data" = to_json (field r "data") /\
  b !! "value" = to_json (or (field r "value") (VStr "0")) /\
  b !! "guardrailId" = to_json (or (field r "guardrailId") (field cfg "guardrailId")) /\
  b !! "chainId" = to_json (or (field r "chainId") (field cfg "chainId")).
Proof.
  cbn zeta. rewrite !json_stringify_lookup. unfold validate_body.
  repeat split; by simplify_map_eq.
Qed.

Lemma field_absent (o : gmap string value) (k : string) :
  o !! k = None -> field o k = VUndefined.
Proof. unfold field. by intros ->. Qed.

Lemma or_falsy (a b : value) : truthy a = false -> or a b = b.
Proof. unfold or. by intros ->. Qed.

(** *** Conversions *)

(** The values whose text is claimed are among those that convert. *)
Lemma exact_convertible (v : value) : exact v = true -> convertible v = true.
Proof. by destruct v. Qed.

(** * The claims *)

(** ** Construction (C2, C7, C10, C8) *)

Lemma merged_config_accepted (cfg : loc) (w : world) (o m : gmap string value) :
  heap w !! cfg = Some o ->
  merged_config cfg w = Some m ->
  m = o ∪ defaults /\
  exists s, field o "apiKey" = VStr s /\ String.prefix "pg_" s = true.
Proof.
  unfold merged_config. intros Hcfg Hm.
  destruct (constructor cfg w) as [w' [e|this]] eqn:Hc; [done|].
  apply constructor_accepted_inv in Hc as (o' & s & Ho' & Hkey & Hpre & -> & Hthis).
  assert (o' = o) as -> by congruence.
  rewrite Hthis in Hm. cbn in Hm. rewrite lookup_insert_eq in Hm.
  split; [congruence|by exists s].
Qed.

(** C2, as the code has it.  Construction fails on the spot, before any
    call and without touching the world, with code [MISSING_API_KEY] when
    the key is absent, [undefined] or the empty string, and with code
    [INVALID_API_KEY] when the key is a non-empty string that does not start
    with [pg_]; every other string key is accepted. *)
Theorem constructor_rejects_exactly (cfg : loc) (w : world) (o : gmap string value) :
  heap w !! cfg = Some o ->
  (field o "apiKey" = VUndefined \/ field o "apiKey" = VStr EmptyString ->
   constructor cfg w = (w, inl (Thrown missing_api_key)) /\
   code missing_api_key = "MISSING_API_KEY") /\
  (forall s, field o "apiKey" = VStr s -> s <> EmptyString ->
             String.prefix "pg_" s = false ->
   constructor cfg w = (w, inl (Thrown invalid_api_key)) /\
   code invalid_api_key = "INVALID_API_KEY") /\
  (forall s, field o "apiKey" = VStr s -> String.prefix "pg_" s = true ->
   exists w' this, constructor cfg w = (w', inr this)).
Proof.
  intros Hcfg. split; [|split].
  - intros Hkey. split; [|done]. apply (constructor_missing _ _ _ Hcfg).
    by destruct Hkey as [-> | ->].
  - intros s Hkey Hne Hpre. split; [|done]. by eapply constructor_invalid.
  - intros s Hkey Hpre. eexists _, _. by eapply constructor_accepts.
Qed.

Lemma constructor_rejects_exactly_witness :
  constructor 0%nat (Caller.world_of ∅ ∅)
    = (Caller.world_of ∅ ∅, inl (Thrown missing_api_key)) /\
  constructor 0%nat (Caller.world_of {[ "apiKey" := VStr "invalid_key" ]} ∅)
    = (Caller.world_of {[ "apiKey" := VStr "invalid_key" ]} ∅,
       inl (Thrown invalid_api_key)) /\
  exists w' this,
    constructor 0%nat (Caller.world_of Caller.plain_config ∅) = (w', inr this).
Proof.
  split; [|split].
  - apply (constructor_rejects_exactly 0%nat (Caller.world_of ∅ ∅) ∅);
      [reflexivity | left; reflexivity].
  - apply (constructor_rejects_exactly 0%nat
             (Caller.world_of {[ "apiKey" := VStr "invalid_key" ]} ∅)
             {[ "apiKey" := VStr "invalid_key" ]} eq_refl) with (s := "invalid_key");
      [reflexivity | discriminate | reflexivity].
  - apply (constructor_rejects_exactly 0%nat (Caller.world_of Caller.plain_config ∅)
             Caller.plain_config eq_refl) with (s := "pg_test_key");
      reflexivity.
Defined.

(** C2 as the specification words it fails on the names of the codes: an
    empty key is rejected with [MISSING_API_KEY] and a key without the
    prefix with [INVALID_API_KEY]. *)
Lemma constructor_codes_counterexample :
  (exists e, snd (constructor 0%nat (Caller.world_of {[ "apiKey" := VStr EmptyString ]} ∅))
               = inl (Thrown e) /\
             code e <> "MISSING_CREDENTIAL") /\
  (exists e, snd (constructor 0%nat (Caller.world_of {[ "apiKey" := VStr "invalid_key" ]} ∅))
               = inl (Thrown e) /\
             code e <> "INVALID_CREDENTIAL").
Proof.
  split.
  - exists missing_api_key. split; [reflexivity|discriminate].
  - exists invalid_api_key. split; [reflexivity|discriminate].
Qed.

(** C7, as the code has it.  Construction does not look at the timeout: for
    an accepted configuration without a [timeout] key the merged timeout is
    the default 30000 ms, which is positive, and a supplied timeout is
    stored as given, whatever it is. *)
Theorem merged_timeout (cfg : loc) (w : world) (o m : gmap string value) :
  heap w !! cfg = Some o ->
  merged_config cfg w = Some m ->
  (o !! "timeout" = None -> field m "timeout" = VNum 30000 /\ 0 < 30000) /\
  (forall v, o !! "timeout" = Some v -> field m "timeout" = v).
Proof.
  intros Hcfg Hm. destruct (merged_config_accepted _ _ _ _ Hcfg Hm) as [-> _].
  unfold field. split.
  - intros Hnone. by rewrite lookup_union_r.
  - intros v Hv. by rewrite (lookup_union_l' _ _ _ (mk_is_Some _ _ Hv)), Hv.
Qed.

Lemma merged_timeout_witness :
  field (Caller.plain_config ∪ defaults) "timeout" = VNum 30000 /\ 0 < 30000.
Proof.
  apply (merged_timeout 0%nat (Caller.world_of Caller.plain_config ∅)
           Caller.plain_config (Caller.plain_config ∪ defaults));
    reflexivity.
Defined.

(** C7 as the specification words it fails: a configuration with
    [timeout: 0], and one with [timeout: -1], is accepted and the client
    keeps that timeout. *)
Lemma zero_timeout_counterexample :
  (merged_config 0%nat
     (Caller.world_of {[ "apiKey" := VStr "pg_test_key"; "timeout" := VNum 0 ]} ∅)
     ≫= (.!! "timeout")) = Some (VNum 0) /\
  (merged_config 0%nat
     (Caller.world_of {[ "apiKey" := VStr "pg_test_key"; "timeout" := VNum (-1) ]} ∅)
     ≫= (.!! "timeout")) = Some (VNum (-1)) /\
  ~ (0 < 0) /\ ~ (0 < -1).
Proof.
  repeat split; try lia; vm_compute; reflexivity.
Qed.

(** C10.  The merge is a spread: a key the caller's object has, even with
    the value [undefined], wins over the default, and the default is used
    exactly for the keys the object lacks.  A configuration with [baseUrl],
    [chainId] and [timeout] present but [undefined] is accepted and leaves
    all three [undefined] in the client. *)
Theorem spread_keeps_undefined :
  (forall (cfg : loc) (w : world) (o m : gmap string value),
     heap w !! cfg = Some o ->
     merged_config cfg w = Some m ->
     forall k, m !! k = match o !! k with
                        | Some v => Some v
                        | None => defaults !! k
                        end) /\
  (exists o m,
     merged_config 0%nat (Caller.world_of o ∅) = Some m /\
     o !! "baseUrl" = Some VUndefined /\
     o !! "chainId" = Some VUndefined /\
     o !! "timeout" = Some VUndefined /\
     field m "baseUrl" = VUndefined /\
     field m "chainId" = VUndefined /\
     field m "timeout" = VUndefined /\
     field defaults "baseUrl" = VStr "https://www.proofgate.xyz/api" /\
     field defaults "chainId" = VNum 56 /\
     field defaults "timeout" = VNum 30000).
Proof.
  split.
  - intros cfg w o m Hcfg Hm k.
    destruct (merged_config_accepted _ _ _ _ Hcfg Hm) as [-> _].
    rewrite lookup_union. by destruct (o !! k), (defaults !! k).
  - exists {[ "apiKey" := VStr "pg_test_key"; "baseUrl" := VUndefined;
              "chainId" := VUndefined; "timeout" := VUndefined ]}.
    eexists. split; [vm_compute; reflexivity|]. by vm_compute.
Qed.

Lemma spread_keeps_undefined_witness :
  (Caller.undefined_chain ∪ defaults) !! "chainId" = Some VUndefined /\
  (Caller.undefined_chain ∪ defaults) !! "timeout" = Some (VNum 30000).
Proof.
  split.
  - apply (proj1 spread_keeps_undefined 0%nat
             (Caller.world_of Caller.undefined_chain ∅) Caller.undefined_chain
             (Caller.undefined_chain ∪ defaults) eq_refl eq_refl "chainId").
  - apply (proj1 spread_keeps_undefined 0%nat
             (Caller.world_of Caller.undefined_chain ∅) Caller.undefined_chain
             (Caller.undefined_chain ∪ defaults) eq_refl eq_refl "timeout").
Defined.

(** C8.  Construction and [validate] only read the caller's objects: every
    object of the store is, after the call, what it was before, so every
    field of the caller's configuration and request keeps its value.  The
    merged configuration is a new object, the caller's fields over the
    three defaults, and the request body is a new object as well. *)
Theorem callers_objects_untouched :
  (forall (cfg : loc) (w : world) (l : loc) (o : gmap string value),
     heap w !! l = Some o ->
     heap (fst (constructor cfg w)) !! l = Some o) /\
  (forall (cfg : loc) (w w' : world) (this : ProofGate) (o : gmap string value),
     heap w !! cfg = Some o ->
     constructor cfg w = (w', inr this) ->
     config this <> cfg /\
     heap w !! config this = None /\
     heap w' !! config this = Some (o ∪ defaults) /\
     dom defaults = {[ "baseUrl"; "chainId"; "timeout" ]}) /\
  (forall (transport : fetch_call -> fetch_outcome) (this : ProofGate) (req : loc)
          (w : world) (l : loc) (o : gmap string value),
     heap w !! l = Some o ->
     heap (fst (validate transport this req w)) !! l = Some o) /\
  (forall (transport : fetch_call -> fetch_outcome) (this : ProofGate) (req : loc)
          (w : world) (cfg r : gmap string value),
     heap w !! config this = Some cfg ->
     heap w !! req = Some r ->
     exists b, b <> req /\ heap w !! b = None /\
               heap (fst (validate transport this req w)) !! b
                 = Some (validate_body cfg r)).
Proof.
  split; [|split; [|split]].
  - intros cfg w l o Hl.
    by apply (lookup_weaken _ _ _ _ Hl), constructor_heap_grows.
  - intros cfg w w' this o Hcfg Hc.
    apply constructor_accepted_inv in Hc as (o' & s & Ho' & _ & _ & -> & ->).
    assert (o' = o) as -> by congruence.
    assert (Hfresh : heap w !! fresh (dom (heap w)) = None)
      by apply not_elem_of_dom, is_fresh.
    split; [|split; [|split]].
    + intros Heq. by rewrite Heq, Hcfg in Hfresh.
    + done.
    + cbn. by rewrite lookup_insert_eq.
    + unfold defaults. rewrite !dom_insert_L, dom_singleton_L. set_solver.
  - intros transport this req w l o Hl.
    by apply (lookup_weaken _ _ _ _ Hl), validate_heap_grows.
  - intros transport this req w cfg r Hcfg Hreq.
    assert (Hfresh : heap w !! fresh (dom (heap w)) = None)
      by apply not_elem_of_dom, is_fresh.
    exists (fresh (dom (heap w))). split; [|split].
    + intros Heq. by rewrite Heq, Hreq in Hfresh.
    + done.
    + rewrite (validate_run _ _ _ _ _ _ Hcfg Hreq). cbn. by rewrite lookup_insert_eq.
Qed.

Lemma callers_objects_untouched_witness :
  heap (fst (constructor 0%nat (Caller.world_of Caller.plain_config Caller.transfer)))
    !! 0%nat = Some Caller.plain_config /\
  heap (fst (with_client 0%nat
               (fun this => validate (Caller.always NoResponseInTime) this 1%nat)
               (Caller.world_of Caller.plain_config Caller.transfer)))
    !! 1%nat = Some Caller.transfer.
Proof.
  split.
  - apply (proj1 callers_objects_untouched 0%nat
             (Caller.world_of Caller.plain_config Caller.transfer) 0%nat
             Caller.plain_config).
    reflexivity.
  - unfold with_client.
    erewrite bind_run;
      [|apply (constructor_accepts 0%nat _ Caller.plain_config "pg_test_key");
        reflexivity].
    apply (proj1 (proj2 (proj2 callers_objects_untouched))).
    vm_compute. reflexivity.
Defined.

(** ** Validation (C1, C3, C9) *)

Section Validation.

Variable transport : fetch_call -> fetch_outcome.

Lemma validateOrThrow_check (this : ProofGate) (req : loc) (w : world) :
  validateOrThrow transport this req w =
    (fst (validate transport this req w),
     safety_check (snd (validate transport this req w))).
Proof.
  unfold validateOrThrow, mbind at 1, M_bind at 1, bind at 1.
  destruct (validate transport this req w) as [w' [e|result]]; [done|].
  unfold safety_check, get_prop, mbind, M_bind, bind, ret, throw_new, throw,
    mret, M_ret, ret.
  cbn [fst snd].
  destruct (prop result "safe") as [safe|] eqn:Hsafe.
  - assert (exists reason, prop result "reason" = Some reason) as [reason Hreason]
      by (destruct result; try done; eauto).
    rewrite Hreason. destruct (truthy safe); [done|]. cbn [negb].
    by destruct (new_ProofGateError reason "VALIDATION_FAILED" VUndefined result).
  - by destruct result.
Qed.

(** C1.  [validateOrThrow] is [validate] followed by a check made on the
    client: it leaves the world as [validate] leaves it, so the one call
    [validate] logs is the only one; a response whose [safe] is [false] is
    raised as [VALIDATION_FAILED] with the response's reason as message and
    the response attached; a response whose [safe] is [true] is returned as
    it is. *)
Theorem validateOrThrow_spec (this : ProofGate) (req : loc) (w : world) :
  validateOrThrow transport this req w =
    (fst (validate transport this req w),
     safety_check (snd (validate transport this req w))) /\
  forall cfg r,
    heap w !! config this = Some cfg ->
    heap w !! req = Some r ->
    fetch_log (fst (validateOrThrow transport this req w))
      = (fetch_log w ++ [validate_call cfg r])%list /\
    forall status data,
      transport (validate_call cfg r) = Responds status (Parsed data) ->
      ok status = true ->
      snd (validate transport this req w) = inr data /\
      (prop data "safe" = Some (VBool true) ->
       snd (validateOrThrow transport this req w) = inr data) /\
      (forall reason,
         prop data "safe" = Some (VBool false) ->
         prop data "reason" = Some (VStr reason) ->
         snd (validateOrThrow transport this req w) =
           inl (Thrown {| message := reason; code := "VALIDATION_FAILED";
                          statusCode := VUndefined; validationResult := data |})).
Proof.
  split; [apply validateOrThrow_check|].
  intros cfg r Hcfg Hreq.
  rewrite (validateOrThrow_run _ _ _ _ _ _ Hcfg Hreq),
    (validate_run _ _ _ _ _ _ Hcfg Hreq).
  split; [done|]. intros status data Hresp Hok.
  rewrite Hresp. cbn [snd settle]. rewrite Hok.
  split; [done|]. unfold safety_check. split.
  - intros Hsafe. rewrite Hsafe. by destruct data.
  - intros reason Hsafe Hreason. by rewrite Hsafe, Hreason.
Qed.

End Validation.

Lemma validateOrThrow_spec_witness :
  fetch_log (fst (validateOrThrow (Caller.always (Responds 200 (Parsed Service.blocked)))
                    Caller.client 1%nat Caller.ready))
    = [validate_call (Caller.plain_config ∪ defaults) Caller.transfer] /\
  snd (validateOrThrow (Caller.always (Responds 200 (Parsed Service.blocked)))
         Caller.client 1%nat Caller.ready)
    = inl (Thrown {| message := "Infinite approval detected";
                     code := "VALIDATION_FAILED";
                     statusCode := VUndefined;
                     validationResult := Service.blocked |}) /\
  snd (validateOrThrow (Caller.always (Responds 200 (Parsed Service.passed)))
         Caller.client 1%nat Caller.ready)
    = inr Service.passed.
Proof.
  assert (Hcfg : heap Caller.ready !! config Caller.client
                 = Some (Caller.plain_config ∪ defaults))
    by (vm_compute; reflexivity).
  assert (Hreq : heap Caller.ready !! 1%nat = Some Caller.transfer)
    by (vm_compute; reflexivity).
  split; [|split].
  - apply (proj2 (validateOrThrow_spec
                    (Caller.always (Responds 200 (Parsed Service.blocked)))
                    Caller.client 1%nat Caller.ready) _ _ Hcfg Hreq).
  - apply (proj2 (proj2 (validateOrThrow_spec
                    (Caller.always (Responds 200 (Parsed Service.blocked)))
                    Caller.client 1%nat Caller.ready) _ _ Hcfg Hreq)
             200 Service.blocked eq_refl eq_refl);
      reflexivity.
  - apply (proj2 (proj2 (validateOrThrow_spec
                    (Caller.always (Responds 200 (Parsed Service.passed)))
                    Caller.client 1%nat Caller.ready) _ _ Hcfg Hreq)
             200 Service.passed eq_refl eq_refl);
      reflexivity.
Defined.

(** C3, as the code has it.  [validate] logs one POST to [<base>/validate]
    whose body has no field besides [from], [to], [data], [value],
    [guardrailId] and [chainId]: [from], [to] and [data] are the request's
    own, a string going through as it is; [value] is ["0"] when the request
    has none; [chainId] and [guardrailId] are those of the client's merged
    configuration when the request has none, and the merged configuration
    holds the caller's own [chainId] and [guardrailId] when the caller gave
    one at construction.  A field whose value comes out [undefined] is not
    part of the transmitted document. *)
Theorem validate_transmits (transport : fetch_call -> fetch_outcome)
    (this : ProofGate) (req : loc) (w : world) (cfg r : gmap string value) :
  heap w !! config this = Some cfg ->
  heap w !! req = Some r ->
  exists b,
    fetch_log (fst (validate transport this req w))
      = (fetch_log w ++
         [{| url := to_string (field cfg "baseUrl") ++ "/validate";
             method := VStr "POST";
             headers := [("Content-Type", VStr "application/json");
                         ("X-API-Key", field cfg "apiKey")];
             body := Some b |}])%list /\
    dom b ⊆ {[ "from"; "to"; "data"; "value"; "guardrailId"; "chainId" ]} /\
    b !! "from" = to_json (field r "from") /\
    b !! "to" = to_json (field r "to") /\
    b !! "data" = to_json (field r "data") /\
    (forall k s, k ∈ ["from"; "to"; "data"] -> field r k = VStr s ->
                 b !! k = Some (VStr s)) /\
    (r !! "value" = None -> b !! "value" = Some (VStr "0")) /\
    (r !! "chainId" = None -> b !! "chainId" = to_json (field cfg "chainId")) /\
    (r !! "guardrailId" = None ->
     b !! "guardrailId" = to_json (field cfg "guardrailId")) /\
    (forall k, b !! k = None <->
               validate_body cfg r !! k = None \/
               validate_body cfg r !! k = Some VUndefined) /\
    (forall o v, cfg = o ∪ defaults -> o !! "chainId" = Some v ->
                 field cfg "chainId" = v) /\
    (forall o, cfg = o ∪ defaults -> field cfg "guardrailId" = field o "guardrailId").
Proof.
  intros Hcfg Hreq. exists (json_stringify (validate_body cfg r)).
  rewrite (validate_run _ _ _ _ _ _ Hcfg Hreq).
  destruct (transmitted_fields cfg r) as (Hfrom & Hto & Hdata & Hvalue & Hgr & Hchain).
  cbn zeta in *.
  split; [done|]. split; [apply transmitted_dom|].
  do 3 (split; [done|]).
  split; [|split; [|split; [|split; [|split; [|split]]]]].
  - intros k s Hk Hs. rewrite !elem_of_cons, elem_of_nil in Hk.
    destruct Hk as [-> | [-> | [-> | []]]]; rewrite Hs in *; done.
  - intros Hnone. by rewrite Hvalue, (field_absent _ _ Hnone).
  - intros Hnone. by rewrite Hchain, (field_absent _ _ Hnone).
  - intros Hnone. by rewrite Hgr, (field_absent _ _ Hnone).
  - intros k. rewrite json_stringify_lookup.
    destruct (validate_body cfg r !! k) as [v|]; cbn.
    + rewrite to_json_None. split; [intros ->; by right|].
      intros [?|?]; [done|congruence].
    + split; [by left|done].
  - intros o v -> Hv. unfold field.
    by rewrite (lookup_union_l' _ _ _ (mk_is_Some _ _ Hv)), Hv.
  - intros o ->. unfold field. by rewrite lookup_union_l.
Qed.

Lemma validate_transmits_witness :
  exists b,
    transmitted (fst (validate (Caller.always (Responds 200 (Parsed Service.passed)))
                        Caller.client 1%nat (Caller.overridden Caller.transfer)))
      = [Some b] /\
    b !! "from" = Some (VStr "0x1234567890123456789012345678901234567890") /\
    b !! "value" = Some (VStr "0") /\
    b !! "chainId" = Some (VNum 8453) /\
    b !! "guardrailId" = Some (VStr "gr_default").
Proof.
  destruct (validate_transmits (Caller.always (Responds 200 (Parsed Service.passed)))
              Caller.client 1%nat (Caller.overridden Caller.transfer)
              Caller.override_config Caller.transfer)
    as (b & Hlog & _ & Hfrom & _ & _ & _ & Hvalue & Hchain & Hgr & _);
    [vm_compute; reflexivity | vm_compute; reflexivity |].
  exists b. unfold transmitted. rewrite Hlog.
  split; [reflexivity|]. split; [exact Hfrom|]. split; [by apply Hvalue|].
  split; [by rewrite Hchain|by rewrite Hgr].
Defined.

(** C3 as the specification words it fails on the count of fields: a client
    built from a configuration without [guardrailId] transmits, for a
    request without one, a body of five fields. *)
Lemma five_fields_counterexample :
  transmitted
    (fst (with_client 0%nat
            (fun this =>
               validate (Caller.always (Responds 200 (Parsed Service.passed))) this 1%nat)
            (Caller.world_of Caller.plain_config Caller.transfer)))
  = [Some {[ "from" := VStr "0x1234567890123456789012345678901234567890";
             "to" := VStr "0xabcdefabcdefabcdefabcdefabcdefabcdefabcd";
             "data" := VStr "0xa9059cbb";
             "value" := VStr "0";
             "chainId" := VNum 56 ]}] /\
  ({[ "from" := VStr "0x1234567890123456789012345678901234567890";
      "to" := VStr "0xabcdefabcdefabcdefabcdefabcdefabcdefabcd";
      "data" := VStr "0xa9059cbb";
      "value" := VStr "0";
      "chainId" := VNum 56 ]} : gmap string value) !! "guardrailId" = None.
Proof. split; vm_compute; reflexivity. Qed.

(** C9.  A field the request carries with a falsy value is treated like a
    missing one: with [value] the empty string the body says ["0"], with
    [chainId] 0 or [guardrailId] the empty string it says what the client's
    merged configuration says. *)
Theorem falsy_fields_fall_back (transport : fetch_call -> fetch_outcome)
    (this : ProofGate) (req : loc) (w : world) (cfg r : gmap string value) :
  heap w !! config this = Some cfg ->
  heap w !! req = Some r ->
  exists call b,
    fetch_log (fst (validate transport this req w)) = (fetch_log w ++ [call])%list /\
    body call = Some b /\
    (truthy (field r "value") = false -> b !! "value" = Some (VStr "0")) /\
    (truthy (field r "chainId") = false ->
     b !! "chainId" = to_json (field cfg "chainId")) /\
    (truthy (field r "guardrailId") = false ->
     b !! "guardrailId" = to_json (field cfg "guardrailId")) /\
    truthy (VStr EmptyString) = false /\
    truthy (VNum 0) = false.
Proof.
  intros Hcfg Hreq.
  exists (validate_call cfg r), (json_stringify (validate_body cfg r)).
  rewrite (validate_run _ _ _ _ _ _ Hcfg Hreq).
  destruct (transmitted_fields cfg r) as (_ & _ & _ & Hvalue & Hgr & Hchain).
  cbn zeta in *. do 2 (split; [done|]).
  split; [|split; [|split]].
  - intros Hf. by rewrite Hvalue, (or_falsy _ _ Hf).
  - intros Hf. by rewrite Hchain, (or_falsy _ _ Hf).
  - intros Hf. by rewrite Hgr, (or_falsy _ _ Hf).
  - done.
Qed.

Lemma falsy_fields_fall_back_witness :
  exists b,
    transmitted (fst (validate (Caller.always (Responds 200 (Parsed Service.passed)))
                        Caller.client 1%nat (Caller.overridden Caller.falsy_transfer)))
      = [Some b] /\
    b !! "value" = Some (VStr "0") /\
    b !! "chainId" = Some (VNum 8453) /\
    b !! "guardrailId" = Some (VStr "gr_default").
Proof.
  destruct (falsy_fields_fall_back (Caller.always (Responds 200 (Parsed Service.passed)))
              Caller.client 1%nat (Caller.overridden Caller.falsy_transfer)
              Caller.override_config Caller.falsy_transfer)
    as (call & b & Hlog & Hbody & Hvalue & Hchain & Hgr & _);
    [vm_compute; reflexivity | vm_compute; reflexivity |].
  exists b. unfold transmitted. rewrite Hlog. cbn. rewrite Hbody.
  split; [reflexivity|]. split; [apply Hvalue; reflexivity|].
  split; [rewrite Hchain; reflexivity | rewrite Hgr; reflexivity].
Defined.

(** ** The shared request routine (C4, C5, C6) *)

Section Requests.

Variable transport : fetch_call -> fetch_outcome.


(** C5.  Every operation leaves the set of armed timers as it found it,
    however the call ends.  Its one call is guarded by a timer armed with
    the configured timeout; and when no response arrives before that timer
    fires, be it while waiting for the response or while reading its body,
    the operation fails with [TIMEOUT]. *)
Theorem timeout_and_timer_disarmed (this : ProofGate) (op : operation) (w : world) :
  timers (fst (perform transport this op w)) = timers w /\
  forall cfg call,
    heap w !! config this = Some cfg ->
    op_call w cfg op = Some call ->
    guards (fst (perform transport this op w))
      = (guards w ++ [Some (field cfg "timeout")])%list /\
    ((transport call = NoResponseInTime \/
      exists status, transport call = Responds status BodyTimedOut) ->
     snd (perform transport this op w) = inl (Thrown timeout_error) /\
     code timeout_error = "TIMEOUT").
Proof.
  split; [apply perform_same_timers|].
  intros cfg call Hcfg Hcall. split; [by eapply perform_guards|].
  intros Hout. split; [|done].
  eapply perform_fails; [done..|].
  by destruct Hout as [-> | [status ->]].
Qed.

(** C6, as the code has it.  [getEvidence] and [checkAgent] put the id and
    the wallet into the URL as they are: the URL handed to [fetch] is the
    base URL, the route and the caller's string, one after the other, with
    no character escaped. *)
Theorem ids_inserted_verbatim (this : ProofGate) (w : world) (cfg : gmap string value) :
  heap w !! config this = Some cfg ->
  let base := to_string (field cfg "baseUrl") in
  (forall validationId,
     url <$> fetch_log (fst (getEvidence transport this validationId w))
       = ((url <$> fetch_log w)
            ++ [(base ++ "/evidence/" ++ validationId)%string])%list) /\
  (forall wallet,
     url <$> fetch_log (fst (checkAgent transport this wallet w))
       = ((url <$> fetch_log w)
            ++ [(base ++ "/agents/check?wallet=" ++ wallet)%string])%list).
Proof.
  intros Hcfg base. split.
  - intros validationId. unfold getEvidence.
    rewrite (request_run transport _ _ no_options _ _ None Hcfg eq_refl).
    cbn. by rewrite fmap_app.
  - intros wallet. unfold checkAgent.
    rewrite (request_run transport _ _ no_options _ _ None Hcfg eq_refl).
    cbn. by rewrite fmap_app.
Qed.

End Requests.

Example caller_constructs :
  constructor 0%nat (Caller.world_of Caller.plain_config Caller.transfer)
    = (Caller.ready, inr Caller.client).
Proof. vm_compute. reflexivity. Qed.

Lemma caller_ready_config :
  heap Caller.ready !! config Caller.client = Some (Caller.plain_config ∪ defaults).
Proof. vm_compute. reflexivity. Defined.



Lemma timeout_and_timer_disarmed_witness :
  timers (fst (perform (Caller.always NoResponseInTime) Caller.client
                 (Validate 1%nat) Caller.ready)) = ∅ /\
  guards (fst (perform (Caller.always NoResponseInTime) Caller.client
                 (Validate 1%nat) Caller.ready)) = [Some (VNum 30000)] /\
  snd (perform (Caller.always NoResponseInTime) Caller.client
         (Validate 1%nat) Caller.ready) = inl (Thrown timeout_error).
Proof.
  split; [|split].
  - apply (proj1 (timeout_and_timer_disarmed (Caller.always NoResponseInTime)
                    Caller.client (Validate 1%nat) Caller.ready)).
  - apply (proj1 (proj2 (timeout_and_timer_disarmed (Caller.always NoResponseInTime)
                           Caller.client (Validate 1%nat) Caller.ready)
                    (Caller.plain_config ∪ defaults)
                    (validate_call (Caller.plain_config ∪ defaults) Caller.transfer)
                    caller_ready_config eq_refl)).
  - apply (proj2 (proj2 (timeout_and_timer_disarmed (Caller.always NoResponseInTime)
                           Caller.client (Validate 1%nat) Caller.ready)
                    (Caller.plain_config ∪ defaults)
                    (validate_call (Caller.plain_config ∪ defaults) Caller.transfer)
                    caller_ready_config eq_refl)
             (or_introl eq_refl)).
Defined.

Lemma ids_inserted_verbatim_witness :
  url <$> fetch_log (fst (getEvidence (Caller.always NoResponseInTime)
                            Caller.client "val_abc123" Caller.ready))
    = ["https://www.proofgate.xyz/api/evidence/val_abc123"] /\
  url <$> fetch_log (fst (checkAgent (Caller.always NoResponseInTime) Caller.client
                            "0x1234567890123456789012345678901234567890" Caller.ready))
    = ["https://www.proofgate.xyz/api/agents/check?wallet=0x1234567890123456789012345678901234567890"].
Proof.
  split.
  - apply (proj1 (ids_inserted_verbatim (Caller.always NoResponseInTime)
                    Caller.client Caller.ready _ caller_ready_config) "val_abc123").
  - apply (proj2 (ids_inserted_verbatim (Caller.always NoResponseInTime)
                    Caller.client Caller.ready _ caller_ready_config)
             "0x1234567890123456789012345678901234567890").
Defined.

(** C6 as the specification words it fails: an id with a [?] and a [=]
    and a wallet with a [&] reach [fetch] as they are, not escaped as
    [%3F], [%3D] and [%26].  In the first URL the path ends at the [?], so
    the route is asked for the id [val]; in the second the query carries
    two [wallet] parameters. *)
Lemma unescaped_ids_counterexample :
  url <$> fetch_log (fst (getEvidence (Caller.always NoResponseInTime)
                            Caller.client "val?x=1" Caller.ready))
    = ["https://www.proofgate.xyz/api/evidence/val?x=1"] /\
  url <$> fetch_log (fst (getEvidence (Caller.always NoResponseInTime)
                            Caller.client "val?x=1" Caller.ready))
    <> ["https://www.proofgate.xyz/api/evidence/val%3Fx%3D1"] /\
  url <$> fetch_log (fst (checkAgent (Caller.always NoResponseInTime)
                            Caller.client "0xab&wallet=0xcd" Caller.ready))
    = ["https://www.proofgate.xyz/api/agents/check?wallet=0xab&wallet=0xcd"] /\
  url <$> fetch_log (fst (checkAgent (Caller.always NoResponseInTime)
                            Caller.client "0xab&wallet=0xcd" Caller.ready))
    <> ["https://www.proofgate.xyz/api/agents/check?wallet=0xab%26wallet%3D0xcd"].
Proof. repeat split; vm_compute; (reflexivity || discriminate). Qed.

(** * Further properties of the client *)

Lemma ok_success (status : Z) : ok status = true <-> success status.
Proof. unfold ok, success. rewrite andb_true_iff, !Z.leb_le. done. Qed.

Lemma settle_inr (out : fetch_outcome) (data : value) :
  settle out = inr data <->
  exists status, out = Responds status (Parsed data) /\ ok status = true.
Proof.
  split.
  - destruct out as [|msg|status [d|msg|]]; cbn; try done.
    destruct (ok status) eqn:Hok.
    + intros [= ->]. by exists status.
    + destruct (prop d "error") as [e|], (prop d "message") as [m|]; try done.
      by destruct (convertible (api_message e m status)).
  - intros (status & -> & Hok). cbn. by rewrite Hok.
Qed.

Lemma settle_inl (out : fetch_outcome) (e : exn) :
  settle out = inl e ->
  exists err, e = Thrown err /\ code err ∈ request_codes /\ validationResult err = VUndefined.
Proof.
  unfold request_codes.
  destruct out as [|msg|status [d|msg|]]; cbn.
  - intros [= <-]. eexists. split; [done|]. split; [set_solver|done].
  - intros [= <-]. eexists. split; [done|]. split; [set_solver|done].
  - destruct (ok status); [done|].
    destruct (prop d "error") as [e'|], (prop d "message") as [m'|];
      try destruct (convertible (api_message e' m' status));
      intros [= <-];
      (eexists; split; [done|]; split; [cbn; set_solver|done]).
  - intros [= <-]. eexists. split; [done|]. split; [set_solver|done].
  - intros [= <-]. eexists. split; [done|]. split; [set_solver|done].
Qed.

Section Taxonomy.

Variable transport : fetch_call -> fetch_outcome.

(** X1.  Nothing but the client's own error leaves the request routine:
    [validate], [checkAgent], [getEvidence] and [getUsage] either return the
    body of a 2xx response or fail with a [ProofGateError] whose code is
    [TIMEOUT], [NETWORK_ERROR] or [API_ERROR] and which carries no
    validation result. *)
Theorem request_errors_normalised (this : ProofGate) (op : operation) (w : world)
    (cfg : gmap string value) (call : fetch_call) :
  heap w !! config this = Some cfg ->
  op_call w cfg op = Some call ->
  (forall req, op <> ValidateOrThrow req) ->
  (exists status data,
     transport call = Responds status (Parsed data) /\ success status /\
     snd (perform transport this op w) = inr data) \/
  (exists err,
     snd (perform transport this op w) = inl (Thrown err) /\
     code err ∈ request_codes /\
     validationResult err = VUndefined).
Proof.
  intros Hcfg Hcall Hop.
  destruct (perform_run transport _ _ _ _ _ Hcfg Hcall) as [_ Hsnd].
  assert (Hs : snd (perform transport this op w) = settle (transport call)).
  { rewrite Hsnd. destruct op; try done. by destruct (Hop req). }
  rewrite Hs. destruct (settle (transport call)) as [e|data] eqn:Hsettle.
  - right. apply settle_inl in Hsettle as (err & -> & Hcode & Hres). by exists err.
  - left. apply settle_inr in Hsettle as (status & Hout & Hok).
    exists status, data. by rewrite <- ok_success.
Qed.

End Taxonomy.

Lemma request_errors_normalised_witness :
  (exists status data,
     Caller.always (Responds 503 (Parsed (VObj []))) 
       (request_call (Caller.plain_config ∪ defaults) "/evidence/val_abc123" VUndefined None)
       = Responds status (Parsed data) /\ success status /\
     snd (perform (Caller.always (Responds 503 (Parsed (VObj []))))
            Caller.client (GetEvidence "val_abc123") Caller.ready) = inr data) \/
  (exists err,
     snd (perform (Caller.always (Responds 503 (Parsed (VObj []))))
            Caller.client (GetEvidence "val_abc123") Caller.ready) = inl (Thrown err) /\
     code err ∈ request_codes /\
     validationResult err = VUndefined).
Proof.
  apply (request_errors_normalised (Caller.always (Responds 503 (Parsed (VObj []))))
           Caller.client (GetEvidence "val_abc123") Caller.ready
           (Caller.plain_config ∪ defaults)
           (request_call (Caller.plain_config ∪ defaults) "/evidence/val_abc123"
              VUndefined None)
           caller_ready_config eq_refl).
  discriminate.
Defined.

Section Settlement.

Variable transport : fetch_call -> fetch_outcome.

(** X2.  A failure of the transport is reported by every operation as
    [NETWORK_ERROR] with the transport's own message and no status. *)
Theorem transport_failure_is_network_error (this : ProofGate) (op : operation)
    (w : world) (cfg : gmap string value) (call : fetch_call) (msg : string) :
  heap w !! config this = Some cfg ->
  op_call w cfg op = Some call ->
  transport call = TransportFailure msg ->
  snd (perform transport this op w) =
    inl (Thrown {| message := msg; code := "NETWORK_ERROR";
                   statusCode := VUndefined; validationResult := VUndefined |}).
Proof.
  intros Hcfg Hcall Hout. eapply perform_fails; [done..|]. by rewrite Hout.
Qed.

(** X3.  The body is parsed before the status is looked at: a response
    whose body is not JSON is reported as [NETWORK_ERROR] with the parser's
    message whatever its status, a 2xx included, and a non-2xx response
    whose body is [null] is reported as [NETWORK_ERROR] too; in both cases
    the HTTP status is lost. *)
Theorem unreadable_body_is_network_error (this : ProofGate) (op : operation)
    (w : world) (cfg : gmap string value) (call : fetch_call) (status : Z) :
  heap w !! config this = Some cfg ->
  op_call w cfg op = Some call ->
  (forall msg,
     transport call = Responds status (Malformed msg) ->
     snd (perform transport this op w) =
       inl (Thrown {| message := msg; code := "NETWORK_ERROR";
                      statusCode := VUndefined; validationResult := VUndefined |})) /\
  (transport call = Responds status (Parsed VNull) ->
   ~ success status ->
   exists err,
     snd (perform transport this op w) = inl (Thrown err) /\
     code err = "NETWORK_ERROR" /\ statusCode err = VUndefined).
Proof.
  intros Hcfg Hcall. split.
  - intros msg Hout. eapply perform_fails; [done..|]. by rewrite Hout.
  - intros Hout Hns. eexists. split.
    + eapply perform_fails; [done..|]. rewrite Hout. cbn.
      destruct (ok status) eqn:Hok; [by apply ok_success in Hok|done].
    + done.
Qed.

(** X4.  [validate], [checkAgent], [getEvidence] and [getUsage] hand the
    parsed body of a response back exactly when the status is 2xx, and then
    as it is: object, array, number or [null] alike. *)
Theorem body_returned_iff_success (this : ProofGate) (op : operation) (w : world)
    (cfg : gmap string value) (call : fetch_call) (status : Z) (data : value) :
  heap w !! config this = Some cfg ->
  op_call w cfg op = Some call ->
  (forall req, op <> ValidateOrThrow req) ->
  transport call = Responds status (Parsed data) ->
  (success status -> snd (perform transport this op w) = inr data) /\
  (~ success status -> exists e, snd (perform transport this op w) = inl e).
Proof.
  intros Hcfg Hcall Hop Hout.
  destruct (perform_run transport _ _ _ _ _ Hcfg Hcall) as [_ Hsnd].
  assert (Hs : snd (perform transport this op w) = settle (transport call)).
  { rewrite Hsnd. destruct op; try done. by destruct (Hop req). }
  rewrite Hs, Hout. cbn. split.
  - intros Hok%ok_success. by rewrite Hok.
  - intros Hns. destruct (ok status) eqn:Hok; [by apply ok_success in Hok|].
    destruct (prop data "error") as [e|], (prop data "message") as [m|];
      try destruct (convertible (api_message e m status)); by eexists.
Qed.

(** X5.  One operation is one call of [fetch], however it ends: there is no
    retry and no second request; the timers are as before and every object
    of the store is what it was. *)
Theorem one_call_per_operation (this : ProofGate) (op : operation) (w : world)
    (cfg : gmap string value) (call : fetch_call) :
  heap w !! config this = Some cfg ->
  op_call w cfg op = Some call ->
  fetch_log (fst (perform transport this op w)) = (fetch_log w ++ [call])%list /\
  timers (fst (perform transport this op w)) = timers w /\
  (forall l o, heap w !! l = Some o ->
               heap (fst (perform transport this op w)) !! l = Some o).
Proof.
  intros Hcfg Hcall.
  destruct (perform_run transport _ _ _ _ _ Hcfg Hcall) as [Hlog _].
  split; [done|]. split; [apply perform_same_timers|].
  intros l o Hl. by apply (lookup_weaken _ _ _ _ Hl), perform_heap_grows.
Qed.

End Settlement.

Lemma transport_failure_is_network_error_witness :
  snd (perform (Caller.always (TransportFailure "fetch failed"))
         Caller.client (CheckAgent "0x1234567890123456789012345678901234567890")
         Caller.ready)
  = inl (Thrown {| message := "fetch failed"; code := "NETWORK_ERROR";
                   statusCode := VUndefined; validationResult := VUndefined |}).
Proof.
  apply (transport_failure_is_network_error
           (Caller.always (TransportFailure "fetch failed"))
           Caller.client (CheckAgent "0x1234567890123456789012345678901234567890")
           Caller.ready (Caller.plain_config ∪ defaults)
           (request_call (Caller.plain_config ∪ defaults)
              "/agents/check?wallet=0x1234567890123456789012345678901234567890"
              VUndefined None)
           "fetch failed" caller_ready_config eq_refl eq_refl).
Defined.

Lemma unreadable_body_is_network_error_witness :
  snd (perform (Caller.always (Responds 200 (Malformed "Unexpected end of JSON input")))
         Caller.client (Validate 1%nat) Caller.ready)
  = inl (Thrown {| message := "Unexpected end of JSON input"; code := "NETWORK_ERROR";
                   statusCode := VUndefined; validationResult := VUndefined |}) /\
  exists err,
    snd (perform (Caller.always (Responds 500 (Parsed VNull)))
           Caller.client (Validate 1%nat) Caller.ready) = inl (Thrown err) /\
    code err = "NETWORK_ERROR" /\ statusCode err = VUndefined.
Proof.
  split.
  - apply (proj1 (unreadable_body_is_network_error
                    (Caller.always (Responds 200 (Malformed "Unexpected end of JSON input")))
                    Caller.client (Validate 1%nat) Caller.ready
                    (Caller.plain_config ∪ defaults)
                    (validate_call (Caller.plain_config ∪ defaults) Caller.transfer)
                    200 caller_ready_config eq_refl)
             "Unexpected end of JSON input" eq_refl).
  - apply (proj2 (unreadable_body_is_network_error
                    (Caller.always (Responds 500 (Parsed VNull)))
                    Caller.client (Validate 1%nat) Caller.ready
                    (Caller.plain_config ∪ defaults)
                    (validate_call (Caller.plain_config ∪ defaults) Caller.transfer)
                    500 caller_ready_config eq_refl) eq_refl).
    unfold success. lia.
Defined.

Lemma body_returned_iff_success_witness :
  snd (perform (Caller.always (Responds 299 (Parsed (VArr []))))
         Caller.client (GetUsage "0x1234567890123456789012345678901234567890")
         Caller.ready) = inr (VArr []) /\
  exists e,
    snd (perform (Caller.always (Responds 300 (Parsed (VArr []))))
           Caller.client (GetUsage "0x1234567890123456789012345678901234567890")
           Caller.ready) = inl e.
Proof.
  split.
  - apply (proj1 (body_returned_iff_success
                    (Caller.always (Responds 299 (Parsed (VArr []))))
                    Caller.client (GetUsage "0x1234567890123456789012345678901234567890")
                    Caller.ready (Caller.plain_config ∪ defaults)
                    (request_call (Caller.plain_config ∪ defaults)
                       "/validate?wallet=0x1234567890123456789012345678901234567890"
                       VUndefined None)
                    299 (VArr []) caller_ready_config eq_refl
                    ltac:(discriminate) eq_refl)).
    unfold success. lia.
  - apply (proj2 (body_returned_iff_success
                    (Caller.always (Responds 300 (Parsed (VArr []))))
                    Caller.client (GetUsage "0x1234567890123456789012345678901234567890")
                    Caller.ready (Caller.plain_config ∪ defaults)
                    (request_call (Caller.plain_config ∪ defaults)
                       "/validate?wallet=0x1234567890123456789012345678901234567890"
                       VUndefined None)
                    300 (VArr []) caller_ready_config eq_refl
                    ltac:(discriminate) eq_refl)).
    unfold success. lia.
Defined.

Lemma one_call_per_operation_witness :
  fetch_log (fst (perform (Caller.always (TransportFailure "fetch failed"))
                    Caller.client (Validate 1%nat) Caller.ready))
  = [validate_call (Caller.plain_config ∪ defaults) Caller.transfer].
Proof.
  apply (one_call_per_operation (Caller.always (TransportFailure "fetch failed"))
           Caller.client (Validate 1%nat) Caller.ready
           (Caller.plain_config ∪ defaults)
           (validate_call (Caller.plain_config ∪ defaults) Caller.transfer)
           caller_ready_config eq_refl).
Defined.

Lemma op_call_shape (w : world) (cfg : gmap string value) (op : operation)
    (call : fetch_call) :
  op_call w cfg op = Some call ->
  url call = to_string (field cfg "baseUrl") ++ op_path op /\
  headers call = [("Content-Type", VStr "application/json");
                  ("X-API-Key", field cfg "apiKey")] /\
  match op with
  | Validate _ | ValidateOrThrow _ => method call = VStr "POST" /\ is_Some (body call)
  | _ => method call = VStr "GET" /\ body call = None
  end.
Proof.
  destruct op as [req|req|wallet|validationId|wallet]; cbn [op_call op_path].
  1,2: destruct (heap w !! req) as [r|]; [|done]; intros [= <-]; by cbn.
  all: intros [= <-]; by cbn.
Qed.

Section Wire.

Variable transport : fetch_call -> fetch_outcome.

Lemma constructed_call (cfg_loc : loc) (w w' : world) (o : gmap string value)
    (this : ProofGate) (op : operation) (call : fetch_call) :
  heap w !! cfg_loc = Some o ->
  constructor cfg_loc w = (w', inr this) ->
  op_call w' (o ∪ defaults) op = Some call ->
  fetch_log (fst (perform transport this op w')) = (fetch_log w' ++ [call])%list /\
  (exists s, field o "apiKey" = VStr s /\ String.prefix "pg_" s = true /\
             headers call = [("Content-Type", VStr "application/json");
                             ("X-API-Key", VStr s)]) /\
  url call = to_string (field (o ∪ defaults) "baseUrl") ++ op_path op /\
  match op with
  | Validate _ | ValidateOrThrow _ => method call = VStr "POST" /\ is_Some (body call)
  | _ => method call = VStr "GET" /\ body call = None
  end.
Proof.
  intros Hcfg Hc Hcall.
  apply constructor_accepted_inv in Hc as (o' & s & Ho' & Hkey & Hpre & -> & Hthis).
  assert (o' = o) as -> by congruence.
  assert (Hm : heap (with_object (o ∪ defaults) w) !! config this = Some (o ∪ defaults))
    by (rewrite Hthis; cbn; by rewrite lookup_insert_eq).
  destruct (perform_run transport _ _ _ _ _ Hm Hcall) as [Hlog _].
  destruct (op_call_shape _ _ _ _ Hcall) as (Hurl & Hhead & Hshape).
  split; [done|]. split; [|done].
  exists s. split; [done|]. split; [done|]. rewrite Hhead.
  assert (field (o ∪ defaults) "apiKey" = VStr s) as ->; [|done].
  unfold field in *. destruct (o !! "apiKey") as [v|] eqn:Hv; [|done].
  by rewrite (lookup_union_l' _ _ _ (mk_is_Some _ _ Hv)), Hv.
Qed.


(** X6.  What a client that construction accepted puts on the wire, for
    every operation: one call to the merged base URL followed by the
    operation's path, with the JSON content type and the caller's own key,
    a string starting with [pg_], in the [X-API-Key] header; a POST with a
    body for the two validating operations, a GET without body for the
    lookups. *)
Theorem wire_contract (cfg_loc : loc) (w w' : world) (o : gmap string value)
    (this : ProofGate) (op : operation) (call : fetch_call) :
  heap w !! cfg_loc = Some o ->
  constructor cfg_loc w = (w', inr this) ->
  op_call w' (o ∪ defaults) op = Some call ->
  fetch_log (fst (perform transport this op w')) = (fetch_log w' ++ [call])%list /\
  (exists s, field o "apiKey" = VStr s /\ String.prefix "pg_" s = true /\
             headers call = [("Content-Type", VStr "application/json");
                             ("X-API-Key", VStr s)]) /\
  url call = to_string (field (o ∪ defaults) "baseUrl") ++ op_path op /\
  match op with
  | Validate _ | ValidateOrThrow _ => method call = VStr "POST" /\ is_Some (body call)
  | _ => method call = VStr "GET" /\ body call = None
  end.
Proof. apply constructed_call. Qed.

(** X7.  The base URL is used as the merged configuration has it, without
    any normalisation: the default when the caller's object has no
    [baseUrl], the caller's string followed at once by the path when it has
    one, and the text [undefined] when the key is there with the value
    [undefined]. *)
Theorem base_url_resolution (cfg_loc : loc) (w w' : world) (o : gmap string value)
    (this : ProofGate) (op : operation) (call : fetch_call) :
  heap w !! cfg_loc = Some o ->
  constructor cfg_loc w = (w', inr this) ->
  op_call w' (o ∪ defaults) op = Some call ->
  url <$> fetch_log (fst (perform transport this op w'))
    = ((url <$> fetch_log w') ++ [url call])%list /\
  (o !! "baseUrl" = None ->
   url call = "https://www.proofgate.xyz/api" ++ op_path op) /\
  (forall b, o !! "baseUrl" = Some (VStr b) -> url call = b ++ op_path op) /\
  (o !! "baseUrl" = Some VUndefined -> url call = "undefined" ++ op_path op).
Proof.
  intros Hcfg Hc Hcall.
  destruct (constructed_call _ _ _ _ _ _ _ Hcfg Hc Hcall) as (Hlog & _ & Hurl & _).
  split; [by rewrite Hlog, fmap_app|].
  rewrite Hurl. unfold field. split; [|split].
  - intros Hb. by rewrite (lookup_union_r _ _ _ Hb).
  - intros b Hb. by rewrite (lookup_union_l' _ _ _ (mk_is_Some _ _ Hb)), Hb.
  - intros Hb. by rewrite (lookup_union_l' _ _ _ (mk_is_Some _ _ Hb)), Hb.
Qed.

End Wire.

Lemma caller_constructed :
  constructor 0%nat (Caller.world_of Caller.plain_config Caller.transfer)
    = (Caller.ready, inr Caller.client).
Proof. vm_compute. reflexivity. Defined.

Lemma wire_contract_witness :
  fetch_log (fst (perform (Caller.always NoResponseInTime) Caller.client
                    (GetEvidence "val_abc123") Caller.ready))
  = [{| url := "https://www.proofgate.xyz/api/evidence/val_abc123";
        method := VStr "GET";
        headers := [("Content-Type", VStr "application/json");
                    ("X-API-Key", VStr "pg_test_key")];
        body := None |}].
Proof.
  apply (wire_contract (Caller.always NoResponseInTime) 0%nat
           (Caller.world_of Caller.plain_config Caller.transfer) Caller.ready
           Caller.plain_config Caller.client (GetEvidence "val_abc123")
           _ eq_refl caller_constructed eq_refl).
Defined.

Lemma base_url_resolution_witness :
  url <$> fetch_log (fst (perform (Caller.always NoResponseInTime) Caller.client
                            (Validate 1%nat) Caller.ready))
  = ["https://www.proofgate.xyz/api/validate"].
Proof.
  apply (base_url_resolution (Caller.always NoResponseInTime) 0%nat
           (Caller.world_of Caller.plain_config Caller.transfer) Caller.ready
           Caller.plain_config Caller.client (Validate 1%nat)
           (validate_call (Caller.plain_config ∪ defaults) Caller.transfer)
           eq_refl caller_constructed eq_refl).
Defined.

Section Verdicts.

Variable transport : fetch_call -> fetch_outcome.

(** X8.  [validateOrThrow] decides on the truthiness of [safe], not on its
    being [true]: a 2xx verdict is returned exactly when its [safe] is
    truthy.  Any other verdict, one without a [safe] field included, fails:
    when its reason can be converted to a string, with [VALIDATION_FAILED]
    and the verdict attached, the message being the reason itself when that
    is a string and empty when the verdict has none; when its reason cannot
    be converted, with the [TypeError] of the conversion and nothing
    attached. *)
Theorem validateOrThrow_by_truthiness (this : ProofGate) (req : loc) (w : world)
    (cfg r : gmap string value) (status : Z) (data safe reason : value) :
  heap w !! config this = Some cfg ->
  heap w !! req = Some r ->
  transport (validate_call cfg r) = Responds status (Parsed data) ->
  success status ->
  prop data "safe" = Some safe ->
  prop data "reason" = Some reason ->
  (truthy safe = true ->
   snd (validateOrThrow transport this req w) = inr data) /\
  (truthy safe = false -> convertible reason = true ->
   exists err,
     snd (validateOrThrow transport this req w) = inl (Thrown err) /\
     code err = "VALIDATION_FAILED" /\
     statusCode err = VUndefined /\
     validationResult err = data /\
     (forall s, reason = VStr s -> message err = s) /\
     (reason = VUndefined -> message err = EmptyString) /\
     (exact reason = true -> reason <> VUndefined ->
      message err = to_string reason)) /\
  (truthy safe = false -> convertible reason = false ->
   snd (validateOrThrow transport this req w)
     = inl (Native "TypeError" "Cannot convert object to primitive value")).
Proof.
  intros Hcfg Hreq Hout Hok%ok_success Hsafe Hreason.
  rewrite (validateOrThrow_run _ _ _ _ _ _ Hcfg Hreq), Hout. cbn [snd settle].
  rewrite Hok. unfold safety_check. rewrite Hsafe, Hreason.
  split; [|split]; [by intros -> | |].
  - intros -> Hconv. unfold new_ProofGateError.
    assert (Hmsg : error_message reason
                   = Some (match reason with
                           | VUndefined => EmptyString
                           | _ => to_string reason
                           end)).
    { unfold error_message, convert. rewrite Hconv. by destruct reason. }
    rewrite Hmsg. eexists. split; [reflexivity|]. cbn [code statusCode
      validationResult message]. do 3 (split; [done|]).
    split; [by intros s ->|]. split; [by intros ->|].
    intros _ Hdef. by destruct reason.
  - intros -> Hconv. unfold new_ProofGateError, error_message, convert.
    rewrite Hconv. by destruct reason.
Qed.

(** X9.  A 2xx response whose body is [null] is returned by [validate] as
    it is, and makes [validateOrThrow] fail with a [TypeError] of the
    language, not with a [ProofGateError]. *)
Theorem validateOrThrow_null_verdict (this : ProofGate) (req : loc) (w : world)
    (cfg r : gmap string value) (status : Z) :
  heap w !! config this = Some cfg ->
  heap w !! req = Some r ->
  transport (validate_call cfg r) = Responds status (Parsed VNull) ->
  success status ->
  snd (validate transport this req w) = inr VNull /\
  exists msg, snd (validateOrThrow transport this req w) = inl (Native "TypeError" msg).
Proof.
  intros Hcfg Hreq Hout Hok%ok_success.
  rewrite (validateOrThrow_run _ _ _ _ _ _ Hcfg Hreq),
    (validate_run _ _ _ _ _ _ Hcfg Hreq), Hout.
  cbn [snd settle]. rewrite Hok. split; [done|]. by eexists.
Qed.

(** X10.  The client keeps nothing between calls: of two operations made
    one after the other, each logs its own call, in order, and the second
    ends as it would have ended had the first never been made. *)
Theorem operations_do_not_interfere (this : ProofGate) (op1 op2 : operation)
    (w : world) (cfg : gmap string value) (call1 call2 : fetch_call) :
  heap w !! config this = Some cfg ->
  op_call w cfg op1 = Some call1 ->
  op_call w cfg op2 = Some call2 ->
  fetch_log (fst (perform transport this op2 (fst (perform transport this op1 w))))
    = (fetch_log w ++ [call1; call2])%list /\
  snd (perform transport this op2 (fst (perform transport this op1 w)))
    = snd (perform transport this op2 w).
Proof.
  intros Hcfg Hcall1 Hcall2.
  set (w1 := fst (perform transport this op1 w)).
  assert (Hgrow : heap w ⊆ heap w1) by apply perform_heap_grows.
  assert (Hcfg1 : heap w1 !! config this = Some cfg)
    by apply (lookup_weaken _ _ _ _ Hcfg Hgrow).
  assert (Hcall2' : op_call w1 cfg op2 = Some call2).
  { destruct op2 as [req|req| | |]; cbn [op_call] in *; try done.
    all: destruct (heap w !! req) as [r|] eqn:Hreq; [|done];
      by rewrite (lookup_weaken _ _ _ _ Hreq Hgrow). }
  destruct (perform_run transport _ _ _ _ _ Hcfg Hcall1) as [Hlog1 _].
  destruct (perform_run transport _ _ _ _ _ Hcfg Hcall2) as [_ Hsnd2].
  destruct (perform_run transport _ _ _ _ _ Hcfg1 Hcall2') as [Hlog2 Hsnd2'].
  split.
  - rewrite Hlog2. fold w1 in Hlog1. rewrite Hlog1. by rewrite <- app_assoc.
  - by rewrite Hsnd2, Hsnd2'.
Qed.

End Verdicts.

Lemma validateOrThrow_by_truthiness_witness :
  (exists err,
     snd (validateOrThrow
            (Caller.always (Responds 200 (Parsed (VObj [("result", VStr "PENDING")]))))
            Caller.client 1%nat Caller.ready) = inl (Thrown err) /\
     code err = "VALIDATION_FAILED" /\
     validationResult err = VObj [("result", VStr "PENDING")] /\
     message err = EmptyString) /\
  snd (validateOrThrow
         (Caller.always (Responds 200 (Parsed (VObj [("safe", VStr "no")]))))
         Caller.client 1%nat Caller.ready)
  = inr (VObj [("safe", VStr "no")]).
Proof.
  split.
  - destruct (validateOrThrow_by_truthiness
                (Caller.always (Responds 200 (Parsed (VObj [("result", VStr "PENDING")]))))
                Caller.client 1%nat Caller.ready (Caller.plain_config ∪ defaults)
                Caller.transfer 200 (VObj [("result", VStr "PENDING")])
                VUndefined VUndefined caller_ready_config eq_refl eq_refl)
      as (_ & Hfail & _);
      [unfold success; lia | reflexivity | reflexivity |].
    destruct (Hfail eq_refl eq_refl)
      as (err & Hsnd & Hcode & _ & Hres & _ & Hmsg & _).
    exists err. split; [exact Hsnd|]. split; [exact Hcode|]. split; [exact Hres|].
    by apply Hmsg.
  - apply (validateOrThrow_by_truthiness
             (Caller.always (Responds 200 (Parsed (VObj [("safe", VStr "no")]))))
             Caller.client 1%nat Caller.ready (Caller.plain_config ∪ defaults)
             Caller.transfer 200 (VObj [("safe", VStr "no")])
             (VStr "no") VUndefined caller_ready_config eq_refl eq_refl);
      [unfold success; lia | reflexivity | reflexivity | reflexivity].
Defined.

Lemma validateOrThrow_null_verdict_witness :
  snd (validate (Caller.always (Responds 200 (Parsed VNull)))
         Caller.client 1%nat Caller.ready) = inr VNull /\
  exists msg,
    snd (validateOrThrow (Caller.always (Responds 200 (Parsed VNull)))
           Caller.client 1%nat Caller.ready) = inl (Native "TypeError" msg).
Proof.
  apply (validateOrThrow_null_verdict (Caller.always (Responds 200 (Parsed VNull)))
           Caller.client 1%nat Caller.ready (Caller.plain_config ∪ defaults)
           Caller.transfer 200 caller_ready_config eq_refl eq_refl).
  unfold success. lia.
Defined.

Lemma operations_do_not_interfere_witness :
  fetch_log
    (fst (perform (Caller.always NoResponseInTime) Caller.client (GetEvidence "val_abc123")
            (fst (perform (Caller.always NoResponseInTime) Caller.client
                    (Validate 1%nat) Caller.ready))))
  = [validate_call (Caller.plain_config ∪ defaults) Caller.transfer;
     request_call (Caller.plain_config ∪ defaults) "/evidence/val_abc123"
       VUndefined None].
Proof.
  apply (operations_do_not_interfere (Caller.always NoResponseInTime) Caller.client
           (Validate 1%nat) (GetEvidence "val_abc123") Caller.ready
           (Caller.plain_config ∪ defaults)
           (validate_call (Caller.plain_config ∪ defaults) Caller.transfer)
           (request_call (Caller.plain_config ∪ defaults) "/evidence/val_abc123"
              VUndefined None)
           caller_ready_config eq_refl eq_refl).
Defined.

(** ** Construction on any key, and the quick helper *)

(** X11.  The constructor looks at the key as JavaScript does: every falsy
    key ([null], [false], 0, the empty string, [undefined]) is reported as
    [MISSING_API_KEY]; a truthy key that is not a string has no
    [startsWith] and makes construction fail with a [TypeError] of the
    language instead of a [ProofGateError]; and construction never calls the
    network nor arms a timer. *)
Theorem constructor_on_any_key (cfg : loc) (w : world) (o : gmap string value) :
  heap w !! cfg = Some o ->
  (truthy (field o "apiKey") = false ->
   constructor cfg w = (w, inl (Thrown missing_api_key))) /\
  (truthy (field o "apiKey") = true -> (forall s, field o "apiKey" <> VStr s) ->
   exists msg, constructor cfg w = (w, inl (Native "TypeError" msg))) /\
  fetch_log (fst (constructor cfg w)) = fetch_log w /\
  timers (fst (constructor cfg w)) = timers w.
Proof.
  intros Hcfg. split; [|split].
  - by apply constructor_missing.
  - intros Htr Hns. eexists. by apply (constructor_not_string _ _ o).
  - destruct (constructor cfg w) as [w' [e|this]] eqn:Hc.
    + destruct (truthy (field o "apiKey")) eqn:Htr.
      * destruct (field o "apiKey") as [| |b|n|s|xs|fs] eqn:Hkey; try done.
        all: try (rewrite (constructor_not_string _ _ o Hcfg) in Hc;
                  [by injection Hc as <- _ | by rewrite Hkey | by rewrite Hkey]).
        destruct (String.prefix "pg_" s) eqn:Hpre.
        -- by rewrite (constructor_accepts _ _ _ _ Hcfg Hkey Hpre) in Hc.
        -- assert (s <> EmptyString) by (by intros ->).
           rewrite (constructor_invalid _ _ _ _ Hcfg Hkey) in Hc; [|done..].
           by injection Hc as <- _.
      * rewrite (constructor_missing _ _ _ Hcfg Htr) in Hc. by injection Hc as <- _.
    + by apply constructor_accepted_inv in Hc as (o' & s & _ & _ & _ & -> & _).
Qed.

Lemma constructor_on_any_key_witness :
  constructor 0%nat (Caller.world_of {[ "apiKey" := VNull ]} ∅)
    = (Caller.world_of {[ "apiKey" := VNull ]} ∅, inl (Thrown missing_api_key)) /\
  exists msg,
    constructor 0%nat (Caller.world_of {[ "apiKey" := VNum 12345 ]} ∅)
      = (Caller.world_of {[ "apiKey" := VNum 12345 ]} ∅, inl (Native "TypeError" msg)).
Proof.
  split.
  - apply (constructor_on_any_key 0%nat (Caller.world_of {[ "apiKey" := VNull ]} ∅)
             {[ "apiKey" := VNull ]} eq_refl).
    reflexivity.
  - apply (constructor_on_any_key 0%nat (Caller.world_of {[ "apiKey" := VNum 12345 ]} ∅)
             {[ "apiKey" := VNum 12345 ]} eq_refl);
      [reflexivity | discriminate].
Defined.

Lemma alloc_run (o : gmap string value) (w : world) :
  alloc o w = (with_object o w, inr (fresh (dom (heap w)))).
Proof. reflexivity. Qed.

Lemma quick_config_fields (apiKey : value) :
  field (quick_config apiKey) "apiKey" = apiKey /\
  field (quick_config apiKey) "baseUrl" = VStr "https://www.proofgate.xyz/api" /\
  field (quick_config apiKey) "chainId" = VNum 56 /\
  field (quick_config apiKey) "guardrailId" = VUndefined.
Proof.
  unfold quick_config, field, defaults. rewrite !lookup_union.
  repeat split; by simplify_map_eq.
Qed.

Section Quick.

Variable transport : fetch_call -> fetch_outcome.

Lemma isTransactionSafe_run (s : string) (tx : loc) (w : world) (r : gmap string value) :
  heap w !! tx = Some r ->
  String.prefix "pg_" s = true ->
  fetch_log (fst (isTransactionSafe transport (VStr s) tx w))
    = (fetch_log w ++ [validate_call (quick_config (VStr s)) r])%list /\
  snd (isTransactionSafe transport (VStr s) tx w)
    = safe_of (settle (transport (validate_call (quick_config (VStr s)) r))).
Proof.
  intros Htx Hpre. unfold isTransactionSafe.
  erewrite bind_run; [|reflexivity].
  set (w1 := with_object {[ "apiKey" := VStr s ]} w).
  assert (Hg1 : heap w ⊆ heap w1)
    by (cbn; apply insert_subseteq, not_elem_of_dom, is_fresh).
  erewrite bind_run;
    [|apply (constructor_accepts _ _ {[ "apiKey" := VStr s ]} s);
      [cbn; by rewrite lookup_insert_eq | done | done]].
  fold (quick_config (VStr s)).
  set (w2 := with_object (quick_config (VStr s)) w1).
  assert (Hg2 : heap w1 ⊆ heap w2)
    by (cbn; apply insert_subseteq, not_elem_of_dom, is_fresh).
  assert (Htx2 : heap w2 !! tx = Some r).
  { eapply lookup_weaken; [|exact Hg2]. by eapply lookup_weaken. }
  assert (Hcfg2 : heap w2 !! fresh (dom (heap w1)) = Some (quick_config (VStr s)))
    by (cbn; by rewrite lookup_insert_eq).
  unfold mbind, M_bind, bind.
  pose proof (validate_run transport {| config := fresh (dom (heap w1)) |} tx w2
                _ _ Hcfg2 Htx2) as Hv.
  subst w1 w2. unfold with_object in Hv |- *. rewrite Hv.
  destruct (settle _) as [e|data]; [done|].
  unfold safe_of, get_prop. cbn. by destruct (prop data "safe").
Qed.

(** X12.  [isTransactionSafe] checks the key before anything is sent: with
    a missing key or one without the [pg_] prefix it fails with the
    constructor's error and no call is made. *)
Theorem isTransactionSafe_checks_key_first (apiKey : value) (tx : loc) (w : world) :
  (truthy apiKey = false ->
   snd (isTransactionSafe transport apiKey tx w) = inl (Thrown missing_api_key) /\
   fetch_log (fst (isTransactionSafe transport apiKey tx w)) = fetch_log w) /\
  (forall s, apiKey = VStr s -> s <> EmptyString -> String.prefix "pg_" s = false ->
   snd (isTransactionSafe transport apiKey tx w) = inl (Thrown invalid_api_key) /\
   fetch_log (fst (isTransactionSafe transport apiKey tx w)) = fetch_log w).
Proof.
  assert (Hl : heap (with_object {[ "apiKey" := apiKey ]} w) !! fresh (dom (heap w))
               = Some {[ "apiKey" := apiKey ]})
    by (cbn; by rewrite lookup_insert_eq).
  assert (Hk : field ({[ "apiKey" := apiKey ]} : gmap string value) "apiKey" = apiKey)
    by (unfold field; by rewrite lookup_singleton_eq).
  split.
  - intros Hf. unfold isTransactionSafe.
    erewrite bind_run; [|apply alloc_run].
    unfold mbind, M_bind, bind.
    rewrite (constructor_missing _ _ _ Hl); [done|by rewrite Hk].
  - intros s -> Hne Hpre. unfold isTransactionSafe.
    erewrite bind_run; [|apply alloc_run].
    unfold mbind, M_bind, bind.
    by rewrite (constructor_invalid _ _ _ s Hl Hk Hne Hpre).
Qed.

(** X13.  With a key that construction accepts, [isTransactionSafe] makes
    one call, to the library's default base URL and with the library's
    default chain 56 for a transaction object that names none; it returns
    the [safe] field of a 2xx verdict as it is (also when that is [false],
    or missing) and fails with the request's own error when the request
    fails: a failure is never turned into [false]. *)
Theorem isTransactionSafe_verdict (s : string) (tx : loc) (w : world)
    (r : gmap string value) :
  heap w !! tx = Some r ->
  String.prefix "pg_" s = true ->
  exists call b,
    fetch_log (fst (isTransactionSafe transport (VStr s) tx w))
      = (fetch_log w ++ [call])%list /\
    url call = "https://www.proofgate.xyz/api/validate" /\
    body call = Some b /\
    (r !! "chainId" = None -> b !! "chainId" = Some (VNum 56)) /\
    (forall status data v,
       transport call = Responds status (Parsed data) -> success status ->
       prop data "safe" = Some v ->
       snd (isTransactionSafe transport (VStr s) tx w) = inr v) /\
    (forall e,
       settle (transport call) = inl e ->
       snd (isTransactionSafe transport (VStr s) tx w) = inl e).
Proof.
  intros Htx Hpre.
  destruct (isTransactionSafe_run s tx w r Htx Hpre) as [Hlog Hsnd].
  destruct (quick_config_fields (VStr s)) as (_ & Hbase & Hchain & _).
  exists (validate_call (quick_config (VStr s)) r),
    (json_stringify (validate_body (quick_config (VStr s)) r)).
  split; [done|]. split; [cbn; by rewrite Hbase|]. split; [done|].
  split; [|split].
  - intros Hnone.
    destruct (transmitted_fields (quick_config (VStr s)) r) as (_ & _ & _ & _ & _ & Hc).
    cbn zeta in Hc. by rewrite Hc, (field_absent _ _ Hnone), Hchain.
  - intros status data v Hout Hok%ok_success Hsafe.
    rewrite Hsnd, Hout. cbn [settle]. rewrite Hok. unfold safe_of. by rewrite Hsafe.
  - intros e He. by rewrite Hsnd, He.
Qed.

End Quick.

Lemma isTransactionSafe_checks_key_first_witness :
  snd (isTransactionSafe (Caller.always (Responds 200 (Parsed Service.passed)))
         (VStr "sk_live_1") 1%nat (Caller.world_of ∅ Caller.transfer))
    = inl (Thrown invalid_api_key) /\
  fetch_log (fst (isTransactionSafe (Caller.always (Responds 200 (Parsed Service.passed)))
                    (VStr "sk_live_1") 1%nat (Caller.world_of ∅ Caller.transfer)))
    = [].
Proof.
  apply (proj2 (isTransactionSafe_checks_key_first
                  (Caller.always (Responds 200 (Parsed Service.passed)))
                  (VStr "sk_live_1") 1%nat (Caller.world_of ∅ Caller.transfer))
           "sk_live_1" eq_refl);
    [discriminate | reflexivity].
Defined.

Lemma isTransactionSafe_verdict_witness :
  exists call b,
    fetch_log (fst (isTransactionSafe (Caller.always (Responds 200 (Parsed Service.blocked)))
                      (VStr "pg_test_key") 1%nat (Caller.world_of ∅ Caller.transfer)))
      = [call] /\
    url call = "https://www.proofgate.xyz/api/validate" /\
    body call = Some b /\
    b !! "chainId" = Some (VNum 56) /\
    snd (isTransactionSafe (Caller.always (Responds 200 (Parsed Service.blocked)))
           (VStr "pg_test_key") 1%nat (Caller.world_of ∅ Caller.transfer))
      = inr (VBool false).
Proof.
  destruct (isTransactionSafe_verdict
              (Caller.always (Responds 200 (Parsed Service.blocked)))
              "pg_test_key" 1%nat (Caller.world_of ∅ Caller.transfer) Caller.transfer
              eq_refl eq_refl)
    as (call & b & Hlog & Hurl & Hbody & Hchain & Hsafe & _).
  exists call, b. split; [exact Hlog|]. split; [exact Hurl|]. split; [exact Hbody|].
  split; [apply Hchain; reflexivity|].
  apply (Hsafe 200 Service.blocked (VBool false)); [reflexivity | | reflexivity].
  unfold success. lia.
Defined.

(** * The signer service *)

Lemma prop_member (body : value) (k : string) (v : value) :
  prop body k = Some v -> forall k', prop body k' = Some (Signer.member body k').
Proof. unfold Signer.member. destruct body; cbn; try done. Qed.

Lemma member_of (data : value) (k : string) (v : value) :
  prop data k = Some v -> Signer.member data k = v.
Proof. unfold Signer.member. by intros ->. Qed.

Lemma destructure_member (body : value) (k : string) (v : value) :
  prop body k = Some v ->
  forall k', Signer.destructure body k' = inr (Signer.member body k').
Proof.
  intros Hp k'. unfold Signer.destructure.
  by rewrite (prop_member _ _ _ Hp k').
Qed.

Lemma lift_get_prop (verdict : value) (k : string) (v : value) (st : Signer.state) :
  prop verdict k = Some v ->
  Signer.lift (get_prop verdict k) st = (st, inr v).
Proof.
  intros Hp. unfold Signer.lift, get_prop. rewrite Hp. by destruct st.
Qed.

Lemma svc_bind_run {A B} (m : Signer.Svc A) (k : A -> Signer.Svc B)
    (st st' : Signer.state) (a : A) :
  m st = (st', inr a) -> (m ≫= k) st = k a st'.
Proof. intros Hm. unfold mbind, Signer.Svc_bind, Signer.svc_bind. by rewrite Hm. Qed.

Lemma svc_bind_throw {A B} (m : Signer.Svc A) (k : A -> Signer.Svc B)
    (st st' : Signer.state) (e : exn) :
  m st = (st', inl e) -> (m ≫= k) st = (st', inl e).
Proof. intros Hm. unfold mbind, Signer.Svc_bind, Signer.svc_bind. by rewrite Hm. Qed.

Lemma handled_state (r : Signer.state * (exn + Signer.reply)) :
  fst (Signer.handled r) = fst r.
Proof. by destruct r as [st [[]|]]. Qed.

Lemma handled_caught (st : Signer.state) (e : exn) :
  e <> Never ->
  Signer.handled (st, inl e) = (st, inr (Signer.failed_reply (exn_message e))).
Proof. by destruct e. Qed.

Section ServiceFacts.

Variable transport : fetch_call -> fetch_outcome.
Variable sendTransaction : Signer.transaction -> exn + string.
Variable parseEther : value -> exn + Z.
Variable address : string.
Variable proofgate : ProofGate.

Lemma echo_of_run (verdict safe : value) (st : Signer.state) :
  prop verdict "safe" = Some safe ->
  Signer.echo_of verdict st =
    (st, inr (Signer.echo (Signer.member verdict "result")
                (Signer.member verdict "reason") (Signer.member verdict "checks"))).
Proof.
  intros Hs. unfold Signer.echo_of.
  erewrite svc_bind_run; [|by apply lift_get_prop, (prop_member _ _ _ Hs)].
  erewrite svc_bind_run; [|by apply lift_get_prop, (prop_member _ _ _ Hs)].
  erewrite svc_bind_run; [|by apply lift_get_prop, (prop_member _ _ _ Hs)].
  done.
Qed.

Lemma after_validation_run (to data value verdict safe : Js.value) (st : Signer.state) :
  prop verdict "safe" = Some safe ->
  Signer.after_validation sendTransaction parseEther to data value verdict st
    = Signer.conclude sendTransaction parseEther to data value verdict st.
Proof.
  intros Hs. unfold Signer.after_validation, Signer.conclude.
  erewrite svc_bind_run; [|by apply lift_get_prop, (prop_member _ _ _ Hs)].
  destruct (convertible (Signer.member verdict "result")) eqn:Hres; cbn [negb].
  2:{ erewrite svc_bind_throw; [done|].
      unfold Signer.of_result, Signer.logged. by rewrite Hres. }
  erewrite svc_bind_run; [|unfold Signer.of_result, Signer.logged; by rewrite Hres].
  erewrite svc_bind_run; [|by apply lift_get_prop, (prop_member _ _ _ Hs)].
  destruct (truthy (Signer.member verdict "safe")); cbn [negb].
  - destruct (truthy value).
    + unfold mbind at 1, Signer.Svc_bind at 1, Signer.svc_bind at 1, Signer.of_result.
      destruct (parseEther value) as [e|amount]; [done|].
      unfold mbind at 1, Signer.Svc_bind at 1, Signer.svc_bind at 1, Signer.send.
      destruct (sendTransaction _) as [e|txHash]; [done|].
      erewrite svc_bind_run; [|by eapply echo_of_run]. done.
    + erewrite svc_bind_run; [|reflexivity].
      unfold mbind at 1, Signer.Svc_bind at 1, Signer.svc_bind at 1, Signer.send.
      destruct (sendTransaction _) as [e|txHash]; [done|].
      erewrite svc_bind_run; [|by eapply echo_of_run]. done.
  - erewrite svc_bind_run; [|by apply lift_get_prop, (prop_member _ _ _ Hs)].
    destruct (convertible (Signer.member verdict "reason")) eqn:Hreason.
    2:{ erewrite svc_bind_throw; [done|].
        unfold Signer.of_result, Signer.logged. by rewrite Hreason. }
    erewrite svc_bind_run;
      [|unfold Signer.of_result, Signer.logged; by rewrite Hreason].
    erewrite svc_bind_run; [|by eapply echo_of_run]. done.
Qed.

Lemma after_validation_null (to data value verdict : Js.value) (st : Signer.state) :
  prop verdict "safe" = None ->
  Signer.after_validation sendTransaction parseEther to data value verdict st
    = (st, inl (Native "TypeError" (cannot_read verdict "result"))).
Proof.
  intros Hs. unfold Signer.after_validation.
  erewrite svc_bind_throw; [done|].
  unfold Signer.lift, get_prop.
  assert (prop verdict "result" = None) as -> by (by destruct verdict).
  by destruct st.
Qed.

(** How the handler ends for a body that can be destructured and logged. *)
Lemma execute_run (body v : Js.value) (st : Signer.state) (cfg : gmap string value) :
  heap (Signer.sdk st) !! config proofgate = Some cfg ->
  prop body "to" = Some v ->
  Signer.announced body = inr tt ->
  let r := Signer.validated address body in
  let call := validate_call cfg r in
  Signer.execute transport sendTransaction parseEther address proofgate body st =
    Signer.handled
      match settle (transport call) with
      | inl e => (Signer.validating cfg r st, inl e)
      | inr verdict =>
          match prop verdict "safe" with
          | Some _ =>
              Signer.conclude sendTransaction parseEther (Signer.member body "to")
                (Signer.member body "data") (Signer.member body "value") verdict
                (Signer.validating cfg r st)
          | None =>
              (Signer.validating cfg r st,
               inl (Native "TypeError" (cannot_read verdict "result")))
          end
      end.
Proof.
  intros Hcfg Hto Hann r call. unfold Signer.execute.
  do 4 (erewrite svc_bind_run;
        [|unfold Signer.of_result; by rewrite (destructure_member _ _ _ Hto)]).
  erewrite svc_bind_run; [|unfold Signer.of_result; by rewrite <- Hann].
  unfold Signer.catch. fold r.
  assert (Hfresh : fresh (dom (heap (Signer.sdk st))) <> config proofgate).
  { intros Heq. apply (is_fresh (dom (heap (Signer.sdk st)))). rewrite Heq.
    apply elem_of_dom. by eexists. }
  erewrite svc_bind_run; [|reflexivity].
  unfold mbind at 1, Signer.Svc_bind at 1, Signer.svc_bind at 1, Signer.lift at 1.
  cbn [Signer.sdk Signer.submitted].
  rewrite (validate_run transport proofgate _ (with_object r (Signer.sdk st)) cfg r);
    [|unfold with_object; cbn [heap]; by rewrite lookup_insert_ne
     |unfold with_object; cbn [heap]; apply lookup_insert_eq].
  fold call. fold (Signer.validating cfg r st).
  destruct (settle (transport call)) as [e|verdict]; [by destruct e|].
  destruct (prop verdict "safe") as [safe|] eqn:Hs.
  - rewrite (after_validation_run _ _ _ _ _ _ Hs).
    by destruct (Signer.conclude _ _ _ _ _ _ _) as [st' [[]|]].
  - by rewrite (after_validation_null _ _ _ _ _ Hs).
Qed.

End ServiceFacts.

Section ServiceProperties.

Variable transport : fetch_call -> fetch_outcome.
Variable sendTransaction : Signer.transaction -> exn + string.
Variable parseEther : value -> exn + Z.
Variable address : string.
Variable proofgate : ProofGate.

Lemma execute_nullish (body : Js.value) (st : Signer.state) :
  prop body "to" = None ->
  exists msg, Signer.execute transport sendTransaction parseEther address proofgate body st = (st, inl (Native "TypeError" msg)).
Proof.
  intros Hp. eexists. unfold Signer.execute.
  erewrite svc_bind_throw; [done|].
  unfold Signer.of_result, Signer.destructure. by rewrite Hp.
Qed.

(** A body one of whose logged fields cannot be converted makes the
    handler throw before its [try]. *)
Lemma execute_unannounced (body v : Js.value) (st : Signer.state) (e : exn) :
  prop body "to" = Some v ->
  Signer.announced body = inl e ->
  Signer.execute transport sendTransaction parseEther address proofgate body st = (st, inl e).
Proof.
  intros Hto Hann. unfold Signer.execute.
  do 4 (erewrite svc_bind_run;
        [|unfold Signer.of_result; by rewrite (destructure_member _ _ _ Hto)]).
  erewrite svc_bind_throw; [done|]. unfold Signer.of_result. by rewrite <- Hann.
Qed.

Lemma validated_fields (body : Js.value) :
  field (Signer.validated address body) "to" = Signer.member body "to" /\
  field (Signer.validated address body) "data"
    = or (Signer.member body "data") (VStr "0x") /\
  field (Signer.validated address body) "value"
    = or (Signer.member body "value") (VStr "0") /\
  field (Signer.validated address body) "from" = VStr address /\
  field (Signer.validated address body) "guardrailId" = Signer.member body "guardrailId" /\
  field (Signer.validated address body) "chainId" = VUndefined.
Proof. unfold field, Signer.validated. repeat split; by simplify_map_eq. Qed.

(** X14.  The service hands a transaction to the wallet only after the
    validation service has answered, for this very request, with a 2xx
    verdict whose [safe] is truthy; it then hands over one transaction,
    with the [to] and the [data] that were validated.  In every other case,
    a failed or blocked validation and a body that cannot be read included,
    nothing reaches the wallet. *)
Theorem signs_only_after_safe_verdict (body : Js.value) (st : Signer.state)
    (cfg : gmap string value) :
  heap (Signer.sdk st) !! config proofgate = Some cfg ->
  Signer.submitted (fst (Signer.execute transport sendTransaction parseEther address proofgate body st)) = Signer.submitted st \/
  exists tx status verdict safe,
    Signer.submitted (fst (Signer.execute transport sendTransaction parseEther address proofgate body st)) = (Signer.submitted st ++ [tx])%list /\
    transport (validate_call cfg (Signer.validated address body))
      = Responds status (Parsed verdict) /\
    success status /\
    prop verdict "safe" = Some safe /\ truthy safe = true /\
    Signer.tx_to tx = field (Signer.validated address body) "to" /\
    Signer.tx_data tx = field (Signer.validated address body) "data".
Proof.
  intros Hcfg.
  destruct (prop body "to") as [v|] eqn:Hto;
    [|destruct (execute_nullish body st Hto) as [msg ->]; by left].
  destruct (Signer.announced body) as [e|[]] eqn:Hann;
    [rewrite (execute_unannounced _ _ _ _ Hto Hann); by left|].
  rewrite (execute_run _ _ _ _ _ _ _ _ _ Hcfg Hto Hann). cbn zeta.
  rewrite handled_state.
  destruct (settle _) as [e|verdict] eqn:Hsettle; [by left|].
  apply settle_inr in Hsettle as (status & Hout & Hok%ok_success).
  destruct (prop verdict "safe") as [safe|] eqn:Hsafe; [|by left].
  unfold Signer.conclude. rewrite (member_of _ _ _ Hsafe).
  destruct (convertible (Signer.member verdict "result")); cbn [negb]; [|by left].
  destruct (truthy safe) eqn:Htr;
    [|left; by destruct (convertible (Signer.member verdict "reason"))].
  destruct (validated_fields body) as (Hfto & Hfdata & _).
  destruct (if truthy (Signer.member body "value")
            then parseEther (Signer.member body "value") else inr 0)
    as [e|amount]; [by left|].
  right. eexists _, status, verdict, safe.
  split; [done|].
  do 4 (split; [done|]). by rewrite Hfto, Hfdata.
Qed.

(** X15.  A verdict that is not safe never reaches the wallet.  When its
    result and its reason can be converted to strings, as the log lines do,
    it is answered with status 400 and the verdict's result, reason and
    checks, the error being [Transaction blocked by ProofGate: ] followed by
    the reason; when one of them cannot, the conversion throws inside the
    [try] and the answer is 500. *)
Theorem blocked_is_400 (body v : Js.value) (st : Signer.state)
    (cfg : gmap string value) (status : Z) (verdict safe : Js.value) :
  heap (Signer.sdk st) !! config proofgate = Some cfg ->
  prop body "to" = Some v ->
  Signer.announced body = inr tt ->
  transport (validate_call cfg (Signer.validated address body))
    = Responds status (Parsed verdict) ->
  success status ->
  prop verdict "safe" = Some safe ->
  truthy safe = false ->
  let result := Signer.member verdict "result" in
  let reason := Signer.member verdict "reason" in
  Signer.submitted (fst (Signer.execute transport sendTransaction parseEther address proofgate body st)) = Signer.submitted st /\
  (convertible result = true -> convertible reason = true ->
   exists answer,
     snd (Signer.execute transport sendTransaction parseEther address proofgate body st) = inr answer /\
     Signer.http_status answer = 400 /\
     prop (Signer.json answer) "success" = Some (VBool false) /\
     prop (Signer.json answer) "validation"
       = Some (Signer.echo result reason (Signer.member verdict "checks")) /\
     (exact reason = true -> answer = Signer.blocked_reply verdict)) /\
  (convertible result = false \/ convertible reason = false ->
   snd (Signer.execute transport sendTransaction parseEther address proofgate body st)
     = inr (Signer.failed_reply "Cannot convert object to primitive value")).
Proof.
  intros Hcfg Hto Hann Hout Hok%ok_success Hsafe Htr result reason.
  rewrite (execute_run _ _ _ _ _ _ _ _ _ Hcfg Hto Hann). cbn zeta.
  rewrite Hout. cbn [settle]. rewrite Hok, Hsafe.
  unfold Signer.conclude. rewrite (member_of _ _ _ Hsafe), Htr.
  fold result. fold reason.
  destruct (convertible result); cbn [negb].
  - destruct (convertible reason).
    + split; [done|]. split; [|by intros [|]].
      intros _ _. exists (Signer.blocked_reply verdict). by repeat split.
    + split; [done|]. split; [done|]. by intros _.
  - split; [done|]. split; [done|]. by intros _.
Qed.

(** X16.  When the validation itself fails (no response in time, a
    transport failure, a non-2xx answer) the service answers with status
    500 and the message of the client's error, and nothing reaches the
    wallet: the service fails closed. *)
Theorem failed_validation_is_500 (body v : Js.value) (st : Signer.state)
    (cfg : gmap string value) (e : exn) :
  heap (Signer.sdk st) !! config proofgate = Some cfg ->
  prop body "to" = Some v ->
  Signer.announced body = inr tt ->
  settle (transport (validate_call cfg (Signer.validated address body))) = inl e ->
  snd (Signer.execute transport sendTransaction parseEther address proofgate body st) = inr (Signer.failed_reply (exn_message e)) /\
  Signer.http_status (Signer.failed_reply (exn_message e)) = 500 /\
  Signer.submitted (fst (Signer.execute transport sendTransaction parseEther address proofgate body st)) = Signer.submitted st.
Proof.
  intros Hcfg Hto Hann He.
  rewrite (execute_run _ _ _ _ _ _ _ _ _ Hcfg Hto Hann). cbn zeta.
  rewrite He. apply settle_inl in He as (err & -> & _). done.
Qed.

(** X17.  After a safe verdict whose result can be converted to a string,
    as the log line does, the amount is [parseEther] of the request's
    value, or 0 for a falsy one.  When [parseEther] throws, the answer is
    500 and nothing reaches the wallet; when the wallet throws, the answer
    is 500 with the wallet's message; when the wallet returns a hash, the
    answer is 200 with that hash and the verdict's result, reason and
    checks.  After a safe verdict whose result cannot be converted the
    answer is 500 and nothing reaches the wallet. *)
Theorem safe_verdict_is_executed (body v : Js.value) (st : Signer.state)
    (cfg : gmap string value) (status : Z) (verdict safe : Js.value) :
  heap (Signer.sdk st) !! config proofgate = Some cfg ->
  prop body "to" = Some v ->
  Signer.announced body = inr tt ->
  transport (validate_call cfg (Signer.validated address body))
    = Responds status (Parsed verdict) ->
  success status ->
  prop verdict "safe" = Some safe ->
  truthy safe = true ->
  let value := Signer.member body "value" in
  let parsed := if truthy value then parseEther value else inr 0 in
  (convertible (Signer.member verdict "result") = false ->
   snd (Signer.execute transport sendTransaction parseEther address proofgate body st)
     = inr (Signer.failed_reply "Cannot convert object to primitive value") /\
   Signer.submitted (fst (Signer.execute transport sendTransaction parseEther address proofgate body st)) = Signer.submitted st) /\
  (convertible (Signer.member verdict "result") = true ->
   (forall e, parsed = inl e -> e <> Never ->
      snd (Signer.execute transport sendTransaction parseEther address proofgate body st) = inr (Signer.failed_reply (exn_message e)) /\
      Signer.submitted (fst (Signer.execute transport sendTransaction parseEther address proofgate body st)) = Signer.submitted st) /\
   (forall amount, parsed = inr amount ->
      let tx := {| Signer.tx_to := Signer.member body "to";
                   Signer.tx_data := or (Signer.member body "data") (VStr "0x");
                   Signer.tx_value := amount |} in
      Signer.submitted (fst (Signer.execute transport sendTransaction parseEther address proofgate body st)) = (Signer.submitted st ++ [tx])%list /\
      (forall e, sendTransaction tx = inl e -> e <> Never ->
         snd (Signer.execute transport sendTransaction parseEther address proofgate body st) = inr (Signer.failed_reply (exn_message e))) /\
      (forall txHash, sendTransaction tx = inr txHash ->
         snd (Signer.execute transport sendTransaction parseEther address proofgate body st) = inr (Signer.done_reply txHash verdict) /\
         Signer.http_status (Signer.done_reply txHash verdict) = 200))).
Proof.
  intros Hcfg Hto Hann Hout Hok%ok_success Hsafe Htr value parsed.
  rewrite (execute_run _ _ _ _ _ _ _ _ _ Hcfg Hto Hann). cbn zeta.
  rewrite Hout. cbn [settle]. rewrite Hok, Hsafe.
  unfold Signer.conclude. rewrite (member_of _ _ _ Hsafe).
  rewrite Htr. fold value. fold parsed. split.
  - by intros ->.
  - intros ->. cbn [negb]. split.
    + intros e -> Hne. by rewrite (handled_caught _ _ Hne).
    + intros amount ->. cbn zeta. rewrite handled_state. split; [done|]. split.
      * intros e -> Hne. by rewrite (handled_caught _ _ Hne).
      * intros txHash ->. done.
Qed.

(** X18.  A request whose body can be destructured, and whose [to], [value]
    and [data] can be converted to strings for the log, is always
    answered, with status 200, 400 or 500 and nothing else, whatever the
    validation service answers and whatever [parseEther] and the wallet
    return or throw.  A body that is [null] or [undefined], or one with a
    logged field that cannot be converted, is not answered at all: the
    handler throws before its [try], having validated and signed
    nothing. *)
Theorem execute_always_answers (body : Js.value) (st : Signer.state)
    (cfg : gmap string value) :
  heap (Signer.sdk st) !! config proofgate = Some cfg ->
  (forall v, parseEther v <> inl Never) ->
  (forall tx, sendTransaction tx <> inl Never) ->
  (forall v, prop body "to" = Some v ->
     Signer.announced body = inr tt ->
     exists answer,
       snd (Signer.execute transport sendTransaction parseEther address proofgate body st) = inr answer /\
       Signer.http_status answer ∈ [200; 400; 500]) /\
  (prop body "to" = None ->
   exists msg, Signer.execute transport sendTransaction parseEther address proofgate body st = (st, inl (Native "TypeError" msg))) /\
  (forall v e, prop body "to" = Some v ->
     Signer.announced body = inl e ->
     Signer.execute transport sendTransaction parseEther address proofgate body st = (st, inl e)).
Proof.
  intros Hcfg Hparse Hsend.
  split; [|split; [apply execute_nullish | intros v e; apply execute_unannounced]].
  intros v Hto Hann.
  assert (Hcaught : forall st' e, e <> Never ->
            exists answer,
              snd (Signer.handled (st', inl e)) = inr answer /\
              Signer.http_status answer ∈ [200; 400; 500]).
  { intros st' e Hne. rewrite (handled_caught _ _ Hne).
    eexists. split; [done|]. cbn. set_solver. }
  rewrite (execute_run _ _ _ _ _ _ _ _ _ Hcfg Hto Hann). cbn zeta.
  destruct (settle _) as [e|verdict] eqn:Hsettle.
  { apply settle_inl in Hsettle as (err & -> & _). by apply Hcaught. }
  destruct (prop verdict "safe") as [safe|]; [|by apply Hcaught].
  unfold Signer.conclude.
  destruct (convertible (Signer.member verdict "result")); cbn [negb];
    [|by apply Hcaught].
  destruct (truthy (Signer.member verdict "safe")).
  - destruct (if truthy (Signer.member body "value")
              then parseEther (Signer.member body "value") else inr 0)
      as [e|amount] eqn:Hamount.
    { apply Hcaught. intros ->.
      destruct (truthy (Signer.member body "value")); [|done].
      by apply Hparse in Hamount. }
    cbn zeta. destruct (sendTransaction _) as [e|txHash] eqn:Hsent.
    + apply Hcaught. intros ->. by apply Hsend in Hsent.
    + eexists. split; [done|]. cbn. set_solver.
  - destruct (convertible (Signer.member verdict "reason")); [|by apply Hcaught].
    eexists. split; [done|]. cbn. set_solver.
Qed.

(** X19.  What the service has validated is its own: for a body that can
    be destructured and logged the request goes out once, with the
    service's address as [from] and the chain of the client's
    configuration, whatever the body says about either; [data] is ["0x"] and
    [value] is ["0"] when the body has none.  A body with a logged field
    that cannot be converted to a string is not validated at all. *)
Theorem service_validates_as_itself (asked v : Js.value) (st : Signer.state)
    (cfg : gmap string value) :
  heap (Signer.sdk st) !! config proofgate = Some cfg ->
  prop asked "to" = Some v ->
  (Signer.announced asked = inr tt ->
   exists call b,
     fetch_log (Signer.sdk (fst (Signer.execute transport sendTransaction parseEther address proofgate asked st)))
       = (fetch_log (Signer.sdk st) ++ [call])%list /\
     body call = Some b /\
     b !! "from" = Some (VStr address) /\
     b !! "chainId" = to_json (field cfg "chainId") /\
     b !! "to" = to_json (Signer.member asked "to") /\
     (truthy (Signer.member asked "data") = false -> b !! "data" = Some (VStr "0x")) /\
     (truthy (Signer.member asked "value") = false -> b !! "value" = Some (VStr "0"))) /\
  (forall e, Signer.announced asked = inl e ->
   fetch_log (Signer.sdk (fst (Signer.execute transport sendTransaction parseEther address proofgate asked st)))
     = fetch_log (Signer.sdk st)).
Proof.
  intros Hcfg Hto. split;
    [|intros e Hann; by rewrite (execute_unannounced _ _ _ _ Hto Hann)].
  intros Hann.
  set (r := Signer.validated address asked).
  exists (validate_call cfg r), (json_stringify (validate_body cfg r)).
  destruct (validated_fields asked) as (Hfto & Hfdata & Hfvalue & Hffrom & _ & Hfchain).
  destruct (transmitted_fields cfg r) as (Hfrom & Htob & Hdata & Hvalue & _ & Hchain).
  cbn zeta in *. fold r in Hfto, Hfdata, Hfvalue, Hffrom, Hfchain.
  split; [|split; [done|]].
  - rewrite (execute_run _ _ _ _ _ _ _ _ _ Hcfg Hto Hann). cbn zeta. fold r.
    rewrite handled_state.
    destruct (settle _) as [e|verdict]; [done|].
    destruct (prop verdict "safe") as [safe|]; [|done].
    unfold Signer.conclude.
    destruct (convertible (Signer.member verdict "result")); cbn [negb]; [|done].
    destruct (truthy (Signer.member verdict "safe"));
      [|by destruct (convertible (Signer.member verdict "reason"))].
    by destruct (if truthy (Signer.member asked "value")
                 then parseEther (Signer.member asked "value") else inr 0).
  - rewrite Hfrom, Hffrom, Hchain, Hfchain, Htob, Hfto, Hdata, Hfdata, Hvalue, Hfvalue.
    split; [done|]. split; [done|]. split; [done|]. split.
    + intros Hf. by rewrite (or_falsy _ _ Hf).
    + intros Hf. rewrite (or_falsy _ _ Hf). done.
Qed.

End ServiceProperties.

(** X20.  The service starts only with both secrets set and a key the
    client accepts: without [PRIVATE_KEY], or without [PROOFGATE_API_KEY],
    it stops with its own error before a client exists, so that the
    client's [MISSING_API_KEY] cannot occur; a key without the [pg_] prefix
    stops it with the client's [INVALID_API_KEY]; otherwise the client it
    keeps has chain 8453 over the library's defaults, and no call has been
    made. *)
Theorem service_starts_with_accepted_key (pk key : value) (w : world) :
  (truthy pk = false ->
   Signer.setup pk key w
     = (w, inl (Native "Error" "PRIVATE_KEY environment variable required"))) /\
  (truthy pk = true -> truthy key = false ->
   Signer.setup pk key w
     = (w, inl (Native "Error" "PROOFGATE_API_KEY environment variable required"))) /\
  (truthy pk = true ->
   forall s, key = VStr s -> s <> EmptyString -> String.prefix "pg_" s = false ->
   snd (Signer.setup pk key w) = inl (Thrown invalid_api_key) /\
   fetch_log (fst (Signer.setup pk key w)) = fetch_log w) /\
  (truthy pk = true ->
   forall s, key = VStr s -> String.prefix "pg_" s = true ->
   exists w' this,
     Signer.setup pk key w = (w', inr this) /\
     heap w' !! config this = Some (Signer.service_config key ∪ defaults) /\
     field (Signer.service_config key ∪ defaults) "chainId" = VNum 8453 /\
     field (Signer.service_config key ∪ defaults) "timeout" = VNum 30000 /\
     fetch_log w' = fetch_log w).
Proof.
  assert (Hl : heap (with_object (Signer.service_config key) w) !! fresh (dom (heap w))
               = Some (Signer.service_config key))
    by (cbn; by rewrite lookup_insert_eq).
  assert (Hk : field (Signer.service_config key) "apiKey" = key)
    by (unfold field, Signer.service_config; by simplify_map_eq).
  split; [|split; [|split]].
  - intros Hpk. unfold Signer.setup. by rewrite Hpk.
  - intros Hpk Hkey. unfold Signer.setup. by rewrite Hpk, Hkey.
  - intros Hpk s -> Hne Hpre. unfold Signer.setup. rewrite Hpk. cbn [negb truthy].
    destruct (String.eqb_spec s EmptyString) as [|_]; [done|]. cbn [negb].
    erewrite bind_run; [|apply alloc_run]. fold (Signer.service_config (VStr s)).
    by rewrite (constructor_invalid _ _ _ s Hl Hk Hne Hpre).
  - intros Hpk s -> Hpre. unfold Signer.setup. rewrite Hpk. cbn [negb truthy].
    destruct (String.eqb_spec s EmptyString) as [Hs|_];
      [by apply prefix_nonempty in Hpre|]. cbn [negb].
    erewrite bind_run; [|apply alloc_run]. fold (Signer.service_config (VStr s)).
    rewrite (constructor_accepts _ _ _ s Hl Hk Hpre).
    eexists _, _. split; [done|]. split; [cbn; by rewrite lookup_insert_eq|].
    unfold field, Signer.service_config, defaults. rewrite !lookup_union.
    repeat split; by simplify_map_eq.
Qed.

Lemma service_starts_with_accepted_key_witness :
  Signer.setup VUndefined (VStr "pg_test_key") (Caller.world_of ∅ ∅)
    = (Caller.world_of ∅ ∅,
       inl (Native "Error" "PRIVATE_KEY environment variable required")) /\
  snd (Signer.setup (VStr "0xprivate") (VStr "sk_live_1") (Caller.world_of ∅ ∅))
    = inl (Thrown invalid_api_key) /\
  exists w' this,
    Signer.setup (VStr "0xprivate") (VStr "pg_test_key") (Caller.world_of ∅ ∅)
      = (w', inr this) /\
    heap w' !! config this
      = Some (Signer.service_config (VStr "pg_test_key") ∪ defaults).
Proof.
  split; [|split].
  - apply (proj1 (service_starts_with_accepted_key VUndefined (VStr "pg_test_key")
                    (Caller.world_of ∅ ∅))).
    reflexivity.
  - apply (proj1 (proj2 (proj2 (service_starts_with_accepted_key (VStr "0xprivate")
                                  (VStr "sk_live_1") (Caller.world_of ∅ ∅))))
             eq_refl "sk_live_1" eq_refl);
      [discriminate | reflexivity].
  - destruct (proj2 (proj2 (proj2 (service_starts_with_accepted_key (VStr "0xprivate")
                                     (VStr "pg_test_key") (Caller.world_of ∅ ∅))))
                eq_refl "pg_test_key" eq_refl eq_refl)
      as (w' & this & Hs & Hh & _).
    by exists w', this.
Defined.

Lemma whole_ether_settles (v : value) : Signer.whole_ether v <> inl Never.
Proof.
  unfold Signer.whole_ether. destruct v as [| | | |s| |]; try done.
  repeat (destruct s as [|[[] [] [] [] [] [] [] []] s]; try done).
Qed.

Lemma refusing_settles (tx : Signer.transaction) : Signer.refusing tx <> inl Never.
Proof. done. Qed.

Lemma started_config :
  heap (Signer.sdk Signer.started) !! config Caller.client
    = Some (Signer.service_config (VStr "pg_test_key") ∪ defaults).
Proof. vm_compute. reflexivity. Defined.

Lemma signs_only_after_safe_verdict_witness :
  Signer.submitted
    (fst (Signer.execute (Caller.always (Responds 200 (Parsed Service.blocked)))
            Signer.accepting Signer.whole_ether "0xservice" Caller.client
            Signer.swap Signer.started)) = [].
Proof.
  destruct (signs_only_after_safe_verdict
              (Caller.always (Responds 200 (Parsed Service.blocked)))
              Signer.accepting Signer.whole_ether "0xservice" Caller.client
              Signer.swap Signer.started _ started_config)
    as [Hnone | (tx & status & verdict & safe & _ & Hout & _ & Hsafe & Htr & _)].
  - exact Hnone.
  - injection Hout as _ <-. injection Hsafe as <-. discriminate Htr.
Defined.

Lemma blocked_is_400_witness :
  snd (Signer.execute (Caller.always (Responds 200 (Parsed Service.blocked)))
         Signer.accepting Signer.whole_ether "0xservice" Caller.client
         Signer.swap Signer.started)
    = inr (Signer.blocked_reply Service.blocked) /\
  Signer.blocked_reply Service.blocked
    = {| Signer.http_status := 400;
         Signer.json :=
           VObj [("success", VBool false);
                 ("error", VStr "Transaction blocked by ProofGate: Infinite approval detected");
                 ("validation",
                  VObj [("result", VStr "FAIL");
                        ("reason", VStr "Infinite approval detected");
                        ("checks", VArr [])])] |}.
Proof.
  split; [|reflexivity].
  destruct (blocked_is_400 (Caller.always (Responds 200 (Parsed Service.blocked)))
              Signer.accepting Signer.whole_ether "0xservice" Caller.client
              Signer.swap (VStr "0xabcdefabcdefabcdefabcdefabcdefabcdefabcd")
              Signer.started _ 200 Service.blocked (VBool false)
              started_config eq_refl eq_refl eq_refl
              ltac:(unfold success; lia) eq_refl eq_refl)
    as (_ & Hanswer & _).
  destruct (Hanswer eq_refl eq_refl) as (answer & Hsnd & _ & _ & _ & Hexact).
  rewrite Hsnd. f_equal. apply Hexact. reflexivity.
Defined.

Lemma failed_validation_is_500_witness :
  snd (Signer.execute (Caller.always NoResponseInTime)
         Signer.accepting Signer.whole_ether "0xservice" Caller.client
         Signer.swap Signer.started)
    = inr {| Signer.http_status := 500;
             Signer.json := VObj [("success", VBool false);
                                  ("error", VStr "Request timeout")] |}.
Proof.
  apply (failed_validation_is_500 (Caller.always NoResponseInTime)
           Signer.accepting Signer.whole_ether "0xservice" Caller.client
           Signer.swap (VStr "0xabcdefabcdefabcdefabcdefabcdefabcdefabcd")
           Signer.started _ (Thrown timeout_error)
           started_config eq_refl eq_refl eq_refl).
Defined.

Lemma safe_verdict_is_executed_witness :
  Signer.submitted
    (fst (Signer.execute (Caller.always (Responds 200 (Parsed Service.passed)))
            Signer.accepting Signer.whole_ether "0xservice" Caller.client
            Signer.swap Signer.started))
    = [{| Signer.tx_to := VStr "0xabcdefabcdefabcdefabcdefabcdefabcdefabcd";
          Signer.tx_data := VStr "0x38ed1739";
          Signer.tx_value := 1000000000000000000 |}] /\
  snd (Signer.execute (Caller.always (Responds 200 (Parsed Service.passed)))
         Signer.accepting Signer.whole_ether "0xservice" Caller.client
         Signer.swap Signer.started)
    = inr (Signer.done_reply "0xhash" Service.passed).
Proof.
  destruct (proj2 (proj2 (safe_verdict_is_executed
                            (Caller.always (Responds 200 (Parsed Service.passed)))
                            Signer.accepting Signer.whole_ether "0xservice" Caller.client
                            Signer.swap (VStr "0xabcdefabcdefabcdefabcdefabcdefabcdefabcd")
                            Signer.started _ 200 Service.passed (VBool true)
                            started_config eq_refl eq_refl eq_refl
                            ltac:(unfold success; lia) eq_refl eq_refl)
                     eq_refl)
              1000000000000000000 eq_refl)
    as (Hsub & _ & Hok).
  split; [exact Hsub|]. apply (Hok "0xhash" eq_refl).
Defined.

Lemma execute_always_answers_witness :
  (exists answer,
     snd (Signer.execute (Caller.always (Responds 200 (Parsed Service.passed)))
            Signer.refusing Signer.whole_ether "0xservice" Caller.client
            Signer.swap Signer.started) = inr answer /\
     Signer.http_status answer ∈ [200; 400; 500]) /\
  Signer.execute (Caller.always (Responds 200 (Parsed Service.passed)))
    Signer.refusing Signer.whole_ether "0xservice" Caller.client
    Signer.unloggable Signer.started
    = (Signer.started, inl cannot_convert).
Proof.
  split.
  - apply (proj1 (execute_always_answers
                    (Caller.always (Responds 200 (Parsed Service.passed)))
                    Signer.refusing Signer.whole_ether "0xservice" Caller.client
                    Signer.swap Signer.started _ started_config
                    whole_ether_settles refusing_settles)
             (VStr "0xabcdefabcdefabcdefabcdefabcdefabcdefabcd") eq_refl eq_refl).
  - apply (proj2 (proj2 (execute_always_answers
                           (Caller.always (Responds 200 (Parsed Service.passed)))
                           Signer.refusing Signer.whole_ether "0xservice" Caller.client
                           Signer.unloggable Signer.started _ started_config
                           whole_ether_settles refusing_settles))
             (VObj [("toString", VNull)]) cannot_convert eq_refl eq_refl).
Defined.

Lemma service_validates_as_itself_witness :
  exists call b,
    fetch_log (Signer.sdk
                 (fst (Signer.execute (Caller.always (Responds 200 (Parsed Service.blocked)))
                         Signer.accepting Signer.whole_ether "0xservice" Caller.client
                         (VObj [("to", VStr "0xabcdefabcdefabcdefabcdefabcdefabcdefabcd");
                                ("from", VStr "0xsomeoneelse");
                                ("chainId", VNum 1)])
                         Signer.started)))
      = [call] /\
    body call = Some b /\
    b !! "from" = Some (VStr "0xservice") /\
    b !! "chainId" = Some (VNum 8453) /\
    b !! "data" = Some (VStr "0x") /\
    b !! "value" = Some (VStr "0").
Proof.
  destruct (proj1 (service_validates_as_itself
                     (Caller.always (Responds 200 (Parsed Service.blocked)))
                     Signer.accepting Signer.whole_ether "0xservice" Caller.client
                     (VObj [("to", VStr "0xabcdefabcdefabcdefabcdefabcdefabcdefabcd");
                            ("from", VStr "0xsomeoneelse");
                            ("chainId", VNum 1)])
                     (VStr "0xabcdefabcdefabcdefabcdefabcdefabcdefabcd")
                     Signer.started _ started_config eq_refl)
              eq_refl)
    as (call & b & Hlog & Hbody & Hfrom & Hchain & _ & Hdata & Hvalue).
  exists call, b. split; [exact Hlog|]. split; [exact Hbody|]. split; [exact Hfrom|].
  split; [rewrite Hchain; reflexivity|].
  split; [apply Hdata; reflexivity | apply Hvalue; reflexivity].
Defined.
